(** * LifeOS autonomous builder: iteration engine and single-shot wrapper

    A shallow embedding of [autonomous-lifeos-builder.py] (prompt
    construction, one agent iteration, the continuous loop and its session
    log) and of [claude_code_wrapper.py] (the single-shot JSON streaming
    wrapper), followed by the properties proved about them.

    Conventions.
    - A Python [str] is a [string] holding its UTF-8 bytes.  The patterns
      searched and replaced by the program are ASCII, so scanning bytes and
      scanning code points give the same result; a slice [s[:n]] counts code
      points.
    - A Python [int] is a [Z].
    - A call that may raise returns a [result]; the external agent runtime
      ([create_client] and the client object it yields) is a value describing
      what each of its operations does when the program calls it.
    - Standard output and the session-log file are explicit state. *)

From Stdlib Require Import String Ascii List ZArith Lia Bool DecimalString.
Import ListNotations.

Local Open Scope string_scope.
Local Open Scope Z_scope.

(** ** Python strings *)

Module PyStr.

(** The one-character string holding a double quote. *)
Definition dq : string := String "034"%char EmptyString.

(** The line feed, as a character and as a string. *)
Definition lf_char : ascii := "010"%char.
Definition lf : string := String lf_char EmptyString.

(** [str(n)] for an [int]: decimal digits, with a leading minus sign. *)
Definition str_of_int (n : Z) : string := NilZero.string_of_int (Z.to_int n).

(** [c * n] for a one-character string. *)
Fixpoint repeat_char (c : ascii) (n : nat) : string :=
  match n with
  | O => EmptyString
  | S k => String c (repeat_char c k)
  end.

(** In UTF-8 a byte [10xxxxxx] continues the code point begun before it;
    every other byte begins one. *)
Definition continuation (c : ascii) : bool :=
  let n := nat_of_ascii c in (Nat.leb 128 n && Nat.ltb n 192)%bool.

(** [len(s)]: the number of code points. *)
Fixpoint len (s : string) : nat :=
  match s with
  | EmptyString => O
  | String c s' => if continuation c then len s' else S (len s')
  end.

(** [s[:n]] for [n >= 0]: the first [n] code points, that is the bytes
    before the one that begins code point [n + 1]. *)
Fixpoint take (n : nat) (s : string) : string :=
  match s with
  | EmptyString => EmptyString
  | String c s' =>
      if continuation c then String c (take n s')
      else
        match n with
        | O => EmptyString
        | S k => String c (take k s')
        end
  end.

(** [s * n] for [n >= 0]. *)
Fixpoint times (s : string) (n : nat) : string :=
  match n with
  | O => EmptyString
  | S k => s ++ times s k
  end.

(** The letter e with an acute accent, U+00E9: two bytes. *)
Definition e_acute : string :=
  String "195"%char (String "169"%char EmptyString).

(** [str.upper] as it acts on ASCII text: the letters [a] to [z] are put in
    upper case and every other byte is left as it is.  (On text outside
    ASCII, [str.upper] also maps the letters of other alphabets.) *)
Definition upper_char (c : ascii) : ascii :=
  let n := nat_of_ascii c in
  if (Nat.leb 97 n && Nat.leb n 122)%bool then ascii_of_nat (n - 32) else c.

Fixpoint upper (s : string) : string :=
  match s with
  | EmptyString => EmptyString
  | String c s' => String (upper_char c) (upper s')
  end.

(** [s.isascii()]. *)
Fixpoint is_ascii (s : string) : bool :=
  match s with
  | EmptyString => true
  | String c s' => (Nat.ltb (nat_of_ascii c) 128 && is_ascii s')%bool
  end.

(** [sub in s]. *)
Fixpoint contains (sub s : string) : bool :=
  (prefix sub s
   || match s with
      | EmptyString => false
      | String _ s' => contains sub s'
      end)%bool.

(** [c not in s] for a character. *)
Fixpoint lacks (c : ascii) (s : string) : bool :=
  match s with
  | EmptyString => true
  | String a s' => (negb (Ascii.eqb a c) && lacks c s')%bool
  end.

(** [s.replace(old, new)]: the occurrences of [old] are found from the left
    and do not overlap.  [replace_from k] first passes over [k] characters
    that belong to an occurrence already replaced. *)
Fixpoint replace_from (k : nat) (old new s : string) : string :=
  match s with
  | EmptyString => EmptyString
  | String c s' =>
      match k with
      | S k' => replace_from k' old new s'
      | O =>
          if prefix old s
          then new ++ replace_from (String.length old - 1) old new s'
          else String c (replace_from 0 old new s')
      end
  end.

(** With an empty [old], Python puts [new] before every character and at the
    end. *)
Fixpoint interleave (new s : string) : string :=
  match s with
  | EmptyString => new
  | String c s' => new ++ String c (interleave new s')
  end.

Definition replace (old new s : string) : string :=
  match old with
  | EmptyString => interleave new s
  | String _ _ => replace_from 0 old new s
  end.

(** [s.endswith(c)] for a character. *)
Fixpoint ends_with (c : ascii) (s : string) : bool :=
  match s with
  | EmptyString => false
  | String a EmptyString => Ascii.eqb a c
  | String _ s' => ends_with c s'
  end.

(** The strings of a list, one after the other. *)
Definition concat (l : list string) : string :=
  fold_right String.append EmptyString l.

End PyStr.

(** ** Exceptions, results and effects *)

(** What a [raise] carries.  [except Exception] catches the instances of
    [Exception]; a [KeyboardInterrupt] or an [asyncio.CancelledError] derives
    from [BaseException] only and passes through it, and so does the
    [SystemExit] that [sys.exit] raises. *)
Inductive exn : Type :=
| Exception_ (msg : string)         (* an instance of [Exception] *)
| Interrupt (msg : string)          (* a [KeyboardInterrupt] *)
| Cancelled (msg : string)          (* another class under [BaseException]
                                       only, as [asyncio.CancelledError] *)
| SystemExit (code : Z).

Definition is_Exception (e : exn) : bool :=
  match e with
  | Exception_ _ => true
  | _ => false
  end.

(** [str(e)]. *)
Definition exn_str (e : exn) : string :=
  match e with
  | Exception_ msg => msg
  | Interrupt msg => msg
  | Cancelled msg => msg
  | SystemExit code => PyStr.str_of_int code
  end.

Inductive result (A : Type) : Type :=
| Ok (a : A)
| Raise (e : exn).
Arguments Ok {A} a.
Arguments Raise {A} e.

(** A computation over a state [S] (standard output, files, the calls made
    so far) that returns or raises. *)
Definition M (S A : Type) : Type := S -> S * result A.

Definition ret {S A} (a : A) : M S A := fun s => (s, Ok a).

Definition raise {S A} (e : exn) : M S A := fun s => (s, Raise e).

Definition bind {S A B} (m : M S A) (k : A -> M S B) : M S B :=
  fun s =>
    match m s with
    | (s', Ok a) => k a s'
    | (s', Raise e) => (s', Raise e)
    end.

Definition lift {S A} (r : result A) : M S A := fun s => (s, r).

Notation "x <- m ;; k" := (bind m (fun x => k))
  (at level 61, m at next level, right associativity).
Notation "m ;; k" := (bind m (fun _ => k))
  (at level 61, right associativity).

(** [try: m  except Exception as e: h e]. *)
Definition try_except {S A} (m : M S A) (h : exn -> M S A) : M S A :=
  fun s =>
    match m s with
    | (s', Ok a) => (s', Ok a)
    | (s', Raise e) => if is_Exception e then h e s' else (s', Raise e)
    end.

(** The status a shell reports when the entry point of the process returns
    or raises: [sys.exit(code)] gives the low eight bits of [code]; an
    uncaught [KeyboardInterrupt] ends the process by [SIGINT], reported as
    128 + 2; any other uncaught exception gives 1. *)
Definition exit_status {A} (r : result A) : Z :=
  match r with
  | Ok _ => 0
  | Raise (SystemExit code) => code mod 256
  | Raise (Interrupt _) => 130
  | Raise _ => 1
  end.

(** ** Dictionaries written as literals *)

Module PyDict.

Definition dict (V : Type) : Type := list (string * V).

Fixpoint lookup {V} (d : dict V) (k : string) : option V :=
  match d with
  | [] => None
  | (k', v) :: d' => if String.eqb k' k then Some v else lookup d' k
  end.

(** [d[k] = v]: an existing key keeps its place and takes the new value. *)
Fixpoint insert {V} (d : dict V) (k : string) (v : V) : dict V :=
  match d with
  | [] => [(k, v)]
  | (k', v') :: d' =>
      if String.eqb k' k then (k', v) :: d' else (k', v') :: insert d' k v
  end.

(** A literal [{k1: v1, k2: v2, ...}] inserts its items from left to right,
    so a key written twice ends with its last value. *)
Definition of_literal {V} (items : list (string * V)) : dict V :=
  fold_left (fun d kv => insert d (fst kv) (snd kv)) items [].

Definition keys {V} (d : dict V) : list string := map fst d.

(** [d.get(k, default)]. *)
Definition get {V} (d : dict V) (k : string) (default : V) : V :=
  match lookup d k with
  | Some v => v
  | None => default
  end.

(** [d[k]], which raises [KeyError] for a missing key; [str] of a
    [KeyError] is the [repr] of the key. *)
Definition getitem {V} (d : dict V) (k : string) : result V :=
  match lookup d k with
  | Some v => Ok v
  | None => Raise (Exception_ ("'" ++ k ++ "'"))
  end.

End PyDict.

(** ** The agent runtime, as the program sees it *)

Module Runtime.

(** A content block, told apart by the name of its type. *)
Inductive block : Type :=
| TextBlock (text : option string)        (* [None]: no [text] attribute *)
| ToolUseBlock (name : option string)     (* [None]: no [name] attribute *)
| ToolResultBlock (is_error : bool) (content : string)
    (* [is_error]: the truth value of the attribute, false when it is
       missing; [content]: [str] of the attribute, empty when missing *)
| OtherBlock.

Inductive message : Type :=
| AssistantMessage (content : option (list block))  (* [None]: no [content] *)
| UserMessage (content : option (list block))
| OtherMessage.

(** What [receive_response()] yields: finitely many messages, then the end
    of the iteration or a raise. *)
Inductive response : Type :=
| RDone
| RYield (m : message) (rest : response)
| RRaise (e : exn).

(** A client, by what its operations do: [None] is a normal return.  Its
    [__aexit__] does not swallow the exception it is given. *)
Record client : Type := mkClient {
  aenter : option exn;
  query : string -> option exn;
  receive_response : string -> response;   (* after [query] of that text *)
  aexit : option exn
}.

(** [create_client(path, model)], by the number of the call (from 1). *)
Definition runtime : Type := nat -> string -> string -> result client.

Definition raising {S} (o : option exn) : M S unit :=
  match o with
  | None => ret tt
  | Some e => raise e
  end.

(** [async with c: body]: [__aexit__] runs on every way out of [body], and
    what it raises replaces the outcome of [body]. *)
Definition async_with {S A} (c : client) (body : M S A) : M S A :=
  fun s =>
    match aenter c with
    | Some e => (s, Raise e)
    | None =>
        let '(s', r) := body s in
        match aexit c with
        | Some e => (s', Raise e)
        | None => (s', r)
        end
    end.

(** A response that yields the messages of a list and ends. *)
Fixpoint yields (ms : list message) : response :=
  match ms with
  | [] => RDone
  | m :: ms' => RYield m (yields ms')
  end.

(** The messages a response yields before it ends or raises, and the
    exception it ends with, if any. *)
Fixpoint stream_messages (r : response) : list message :=
  match r with
  | RYield m rest => m :: stream_messages rest
  | _ => []
  end.

Fixpoint stream_raise (r : response) : option exn :=
  match r with
  | RDone => None
  | RYield _ rest => stream_raise rest
  | RRaise e => Some e
  end.

(** The three steps of a session in which the runtime may raise. *)
Inductive phase : Type := Acquiring | Submitting | Iterating.

(** [raises_in c prompt ph e]: with [prompt] submitted, the session on [c]
    goes through the steps before [ph] and raises [e] in [ph]. *)
Definition raises_in (c : client) (prompt : string) (ph : phase) (e : exn)
  : Prop :=
  match ph with
  | Acquiring => aenter c = Some e
  | Submitting => aenter c = None /\ query c prompt = Some e
  | Iterating =>
      aenter c = None /\ query c prompt = None
      /\ stream_raise (receive_response c prompt) = Some e
  end.

(** The exception that leaves [async with c: ...] when [e] is raised in the
    step [ph]: what [__aenter__] raises leaves as it is, [__aexit__] not
    being called; what is raised inside the block is handed to [__aexit__],
    and what [__aexit__] raises takes its place. *)
Definition surfacing (c : client) (ph : phase) (e : exn) : exn :=
  match ph, aexit c with
  | Acquiring, _ => e
  | _, Some e' => e'
  | _, None => e
  end.

(** The exception that leaves [async with c: query; receive], if any: the
    one of [__aenter__]; else, the block having been entered, the one of
    [__aexit__]; else the one raised inside the block. *)
Definition with_block_raise (c : client) (prompt : string) : option exn :=
  match aenter c with
  | Some e => Some e
  | None =>
      match aexit c with
      | Some e => Some e
      | None =>
          match query c prompt with
          | Some e => Some e
          | None => stream_raise (receive_response c prompt)
          end
      end
  end.

(** The response events of the specification, and the events that the
    program's dispatch on type names sees in a message: text and tool use
    in the content of an [AssistantMessage], tool results in the content of
    a [UserMessage]. *)
Inductive ResponseEvent : Type :=
| TextFragment (content : string)
| ToolInvocation (name : string)
| ToolResult (is_error : bool) (content : string).

Definition assistant_event (b : block) : list ResponseEvent :=
  match b with
  | TextBlock (Some text) => [TextFragment text]
  | ToolUseBlock (Some name) => [ToolInvocation name]
  | ToolUseBlock None => [ToolInvocation "unknown"]
  | _ => []
  end.

Definition user_event (b : block) : list ResponseEvent :=
  match b with
  | ToolResultBlock is_error content => [ToolResult is_error content]
  | _ => []
  end.

Definition events_of_message (m : message) : list ResponseEvent :=
  match m with
  | AssistantMessage (Some content) => flat_map assistant_event content
  | UserMessage (Some content) => flat_map user_event content
  | _ => []
  end.

Definition events_of (ms : list message) : list ResponseEvent :=
  flat_map events_of_message ms.

(** An event as a message of one block. *)
Definition message_of_event (ev : ResponseEvent) : message :=
  match ev with
  | TextFragment content => AssistantMessage (Some [TextBlock (Some content)])
  | ToolInvocation name => AssistantMessage (Some [ToolUseBlock (Some name)])
  | ToolResult is_error content =>
      UserMessage (Some [ToolResultBlock is_error content])
  end.

(** The contents of the text fragments, one after the other. *)
Fixpoint aggregated_text (evs : list ResponseEvent) : string :=
  match evs with
  | [] => ""
  | TextFragment content :: evs' => content ++ aggregated_text evs'
  | _ :: evs' => aggregated_text evs'
  end.

(** The names of the tool invocations, in order. *)
Fixpoint tool_names (evs : list ResponseEvent) : list string :=
  match evs with
  | [] => []
  | ToolInvocation name :: evs' => name :: tool_names evs'
  | _ :: evs' => tool_names evs'
  end.

(** A client that connects, accepts the prompt, yields the given messages
    and disconnects. *)
Definition streaming (ms : list message) : client :=
  mkClient None (fun _ => None) (fun _ => yields ms) None.

End Runtime.

(** ** Prompt construction ([get_agent_prompt]) *)

Module Builder.
Import PyStr Runtime.

(** A [Path] is kept as the string [str] gives for it on POSIX: a root
    (empty, one slash or two) followed by the parts, joined by slashes. *)
Definition path : Type := string.
Definition str_of_path (p : path) : string := p.

(** [s.split("/")], the piece being read kept in [cur]. *)
Fixpoint split_slash (cur s : string) : list string :=
  match s with
  | EmptyString => [cur]
  | String c s' =>
      if Ascii.eqb c "/" then cur :: split_slash "" s'
      else split_slash (cur ++ String c EmptyString) s'
  end.

(** ["/".join(parts)]. *)
Fixpoint join_slash (parts : list string) : string :=
  match parts with
  | [] => ""
  | [x] => x
  | x :: rest => x ++ "/" ++ join_slash rest
  end.

(** The root of a path string: two leading slashes are kept when no third
    follows them, any other run of leading slashes is one slash. *)
Definition root_of (s : string) : string :=
  match s with
  | String "/" (String "/" (String "/" _)) => "/"
  | String "/" (String "/" _) => "//"
  | String "/" _ => "/"
  | _ => ""
  end.

(** A part that is empty or a single dot is dropped. *)
Definition kept_part (x : string) : bool :=
  (negb (String.eqb x "") && negb (String.eqb x "."))%bool.

(** [str(Path(s))]. *)
Definition Path (s : string) : path :=
  let root := root_of s in
  let parts := filter kept_part (split_slash "" s) in
  match root, parts with
  | EmptyString, [] => "."
  | _, _ => root ++ join_slash parts
  end.

(** [p / name]: an absolute [name] replaces [p]. *)
Definition path_div (p : path) (name : string) : path :=
  Path (if prefix "/" name then name
        else if (String.eqb p "" || ends_with "/" p)%bool then p ++ name
        else p ++ "/" ++ name).

Definition LIFEOS_ROOT : path := Path "/home/louisdup/Agents/lifeOS".
Definition ECHO_MVP_DIR : path := path_div LIFEOS_ROOT "echo-mvp".
Definition MASTRA_BACKEND : path := path_div ECHO_MVP_DIR "mastra-backend".
Definition EXPO_APP : path := path_div ECHO_MVP_DIR "expo-app".

(** Seconds between iterations. *)
Definition AUTO_CONTINUE_DELAY : Z := 5.

Definition common_context (agent_type : string) (iteration : Z) : string :=
  "# LifeOS Autonomous Build - "
  ++ upper agent_type
  ++ " Agent

**Project:** LifeOS (Echo/Lark) - Personal Operating System MVP
**Root:** "
  ++ str_of_path LIFEOS_ROOT
  ++ "
**Backend:** "
  ++ str_of_path MASTRA_BACKEND
  ++ "
**Frontend:** "
  ++ str_of_path EXPO_APP
  ++ "
**Iteration:** "
  ++ str_of_int iteration
  ++ "

## Your Mission
You are a specialized autonomous coding agent responsible for building and maintaining
the "
  ++ agent_type
  ++ " component of lifeOS. You work continuously and autonomously.

## Project Context
LifeOS is a WhatsApp-style personal OS app with AI agents for productivity:
- @mail agent: Gmail/email management
- @cal agent: Calendar integration
- @mem agent: Personal memory/search
- Frontend: React Native Expo app

Current status: ~70% code complete, needs testing, completion, and polish.

## Your Responsibilities
".

Definition body_database : string :=
"
**Component:** Neon PostgreSQL Database Setup
**Architecture:** Hosted backend (VPS + Neon)

### Tasks (Priority Order):
1. Read HOSTED_ARCHITECTURE.md to understand new architecture
2. Create database schema file (schema.sql) with tables:
   - users (id, email, username, password_hash)
   - messages (id, user_id, content, role, agent_name, metadata)
   - agent_state (id, user_id, agent_name, state_data)
   - sessions (id, user_id, token, expires_at)
3. Create migration script to set up Neon database
4. Add database connection to Mastra backend
5. Update backend to use PostgreSQL instead of LibSQL
6. Test database connection and queries

### Success Criteria:
- Schema file created and documented
- Can connect to Neon from backend
- Messages table can store/retrieve chat messages
- All indexes created for performance

### Technologies:
- @neondatabase/serverless
- PostgreSQL
- SQL migrations
".

Definition body_email : string :=
"
**Component:** Email Agent (@mail) - Mastra backend + Neon DB
**Files:** {mastra}/src/agents/email-agent.ts, {mastra}/src/tools/gmail-tools.ts

### Tasks (Priority Order):
1. Update email agent to store messages in Neon database
2. Update agent memory to use PostgreSQL (agent_state table)
3. Test Gmail OAuth integration (see GMAIL_OAUTH_SETUP.md)
4. Verify all email tools work with database: list, search, get details, draft, send
5. Ensure conversation history persists to database
6. Add error handling and edge cases
7. Test with real Gmail API

### Success Criteria:
- Email agent uses Neon for message storage
- Conversation history persists across sessions
- All Gmail tools functional with DB integration
- OAuth flow works
- Draft → send workflow reliable

### Current Issues to Address:
- Migrate from LibSQL to PostgreSQL
- Store agent state in agent_state table
- Update memory configuration for Neon
".

Definition body_calendar : string :=
"
**Component:** Calendar Agent (@cal) - Needs implementation
**Files:** {mastra}/src/agents/ (create calendar-agent.ts), {mastra}/src/tools/ (create calendar-tools.ts)

### Tasks (Priority Order):
1. Review calendar requirements in docs/stage-0-spec.md
2. Create calendar agent following email-agent.ts pattern
3. Implement Google Calendar OAuth
4. Create calendar tools: list events, create event, update event, delete event
5. Add natural language date parsing
6. Test with real Google Calendar API
7. Add to agent registry/routing
8. Create tests

### Success Criteria:
- Calendar agent created and registered
- Google Calendar OAuth working
- All CRUD operations functional
- Natural language date handling (" ++ dq ++ "tomorrow at 3pm" ++ dq ++ ")
- Tests passing

### Reference:
- Email agent structure: {mastra}/src/agents/email-agent.ts
- Mastra docs for agent creation
".

Definition body_memory : string :=
"
**Component:** Memory Agent (@mem) - Search/RAG system
**Files:** {mastra}/src/agents/ (create memory-agent.ts), database setup

### Tasks (Priority Order):
1. Review memory requirements in docs/stage-0-spec.md
2. Design memory storage (LibSQL/SQLite)
3. Create memory agent for semantic search
4. Implement full-text search across all contexts
5. Add conversation history storage
6. Implement RAG-based retrieval
7. Create memory tools: search, store, recall
8. Test with sample data

### Success Criteria:
- Memory agent created
- Database schema defined
- Full-text search working
- RAG retrieval functional
- Conversation history persisted
- Fast search (<500ms)

### Technologies:
- LibSQLStore (already used in email-agent)
- Vector embeddings (optional MVP enhancement)
- Mastra Memory system
".

Definition body_frontend : string :=
"
**Component:** Expo React Native Frontend
**Files:** {expo}/App.js, {expo}/app/**, {expo}/components/**

### Tasks (Priority Order):
1. Review existing Expo app structure
2. Fix any dependency issues (npm install)
3. Test chat interface
4. Connect to Mastra backend (http://localhost:3001)
5. Implement @mention agent routing
6. Test email agent UI flows
7. Add calendar agent UI (when ready)
8. Add memory agent UI (when ready)
9. Polish UI/UX
10. Test on physical device (if available)

### Success Criteria:
- App runs without errors
- Chat interface functional
- Backend connection working
- @mail agent accessible via @mention
- Message sending/receiving works
- UI is polished and responsive

### Technologies:
- React Native / Expo
- Expo Router (app/ directory)
- Backend API calls to localhost:3001
".

Definition body_backend : string :=
"
**Component:** Backend API Server (Express + Mastra + Neon)
**Files:** {mastra}/src/index.ts, {mastra}/src/api/**, {mastra}/package.json

### Tasks (Priority Order):
1. Read HOSTED_ARCHITECTURE.md for new architecture
2. Install Neon PostgreSQL client (@neondatabase/serverless)
3. Create API endpoints:
   - POST /api/auth/register
   - POST /api/auth/login
   - GET  /api/messages
   - POST /api/messages
   - GET  /api/agents
4. Add database connection middleware
5. Add JWT authentication middleware
6. Update agent routing to store in database
7. Add error handling and logging
8. Test all endpoints

### Success Criteria:
- Backend connects to Neon
- Auth endpoints work (register/login)
- Messages endpoint saves to database
- Agent routing integrated
- CORS configured for frontend
- Environment variables properly configured

### Technologies:
- Express.js
- @neondatabase/serverless
- jsonwebtoken (JWT)
- bcrypt (password hashing)
".

Definition body_frontend_2 : string :=
"
**Component:** Expo Frontend - API Integration
**Files:** {expo}/App.js, {expo}/app/**, {expo}/components/**

### Tasks (Priority Order):
1. Read HOSTED_ARCHITECTURE.md for new architecture
2. Remove local SQLite code
3. Create API client (fetch wrapper)
4. Add auth screens (login/register)
5. Add JWT token storage (AsyncStorage)
6. Update chat UI to use API endpoints
7. Add @mention routing to backend
8. Test message sending/receiving
9. Add error handling for network issues
10. Test on device/simulator

### Success Criteria:
- App connects to backend API
- Login/register works
- Messages save to database via API
- Chat interface responsive
- @mail mentions route correctly
- Works on iOS and Android

### Technologies:
- React Native / Expo
- AsyncStorage (JWT storage)
- Fetch API
- Expo Router
".

Definition body_orchestrator : string :=
"
**Component:** Full Stack Orchestrator - HOSTED ARCHITECTURE
**Architecture:** VPS Backend + Neon PostgreSQL + Expo Frontend
**Scope:** Entire LifeOS MVP - Unified Chat Interface

### CRITICAL: Read HOSTED_ARCHITECTURE.md First!
We've pivoted to a hosted architecture. Local-first iOS is DEPRECATED.

### Your Role:
You coordinate the overall build for HOSTED setup. Each iteration:
1. Review HOSTED_ARCHITECTURE.md
2. Identify highest priority task for hosted setup
3. Make progress on that task
4. Update progress tracking
5. Move to next priority

### Current Priority (Hosted MVP):
1. **DATABASE**: Create Neon PostgreSQL schema
2. **BACKEND**: Set up Express API + Neon connection
3. **AUTH**: Implement user registration/login (JWT)
4. **MESSAGES**: Message storage and retrieval endpoints
5. **AGENTS**: Update @mail agent to use Neon
6. **FRONTEND**: Update Expo app to connect to API
7. **DEPLOY**: Prepare for VPS deployment
8. **TEST**: End-to-end testing

### Decision Making:
- Focus on hosted architecture ONLY
- Ignore local SQLite, CloudKit, Swift code
- Build standard REST API
- Use Neon PostgreSQL for everything
- Keep it simple and deployable

### Success Criteria (Hosted MVP Complete):
- ✅ Neon database schema created
- ✅ Backend API deployed on VPS
- ✅ Auth working (register/login)
- ✅ Messages persist to database
- ✅ @mail agent integrated
- ✅ Frontend connects to backend
- ✅ Unified chat interface working
- ✅ Ready for multi-device testing

### Architecture Stack:
- **Database:** Neon PostgreSQL
- **Backend:** Node.js + Express + Mastra
- **Frontend:** React Native Expo
- **Deploy:** Railway/Fly.io/DigitalOcean
- **Auth:** JWT tokens
".

Definition agent_prompts_literal : list (string * string) :=
  [ ("database", body_database);
    ("email", body_email);
    ("calendar", body_calendar);
    ("memory", body_memory);
    ("frontend", body_frontend);
    ("backend", body_backend);
    ("frontend", body_frontend_2);
    ("orchestrator", body_orchestrator) ].

Definition footer_template : string :=
"

## Working Style:
1. Start by reading relevant files to understand current state
2. Make ONE focused change at a time
3. Test your changes when possible
4. Update progress logs
5. If blocked, document the blocker and move to next task

## Important Files:
- Project specs: {root}/docs/stage-0-spec.md
- Implementation status: {root}/IMPLEMENTATION_STATUS.md
- Progress: {echo}/claude-progress.txt
- Feature tests: {echo}/feature_list.json

## Commands:
- Start backend: cd {mastra} && npm run api
- Start frontend: cd {expo} && npx expo start
- Test backend: cd {mastra} && npm test (if tests exist)

## Guidelines:
- Work autonomously - don't ask for permission
- Be productive - make real progress each iteration
- Test your changes when possible
- Document what you do
- Focus on making the app work, not perfect

## This Iteration:
Analyze the current state and make ONE meaningful improvement.
Then summarize what you did in 2-3 sentences.

BEGIN YOUR WORK NOW.
".

Definition agent_prompts : PyDict.dict string :=
  PyDict.of_literal agent_prompts_literal.

(** The footer, with its four placeholders resolved. *)
Definition footer : string :=
  replace "{expo}" (str_of_path EXPO_APP)
    (replace "{mastra}" (str_of_path MASTRA_BACKEND)
       (replace "{echo}" (str_of_path ECHO_MVP_DIR)
          (replace "{root}" (str_of_path LIFEOS_ROOT) footer_template))).

(** The two replacements made on the header and the task body. *)
Definition resolve_paths (s : string) : string :=
  replace "{expo}" (str_of_path EXPO_APP)
    (replace "{mastra}" (str_of_path MASTRA_BACKEND) s).

(** The placeholder tokens of the templates. *)
Definition placeholders : list string :=
  ["{mastra}"; "{expo}"; "{root}"; "{echo}"].

Definition get_agent_prompt (agent_type : string) (iteration : Z)
  : result string :=
  match PyDict.getitem agent_prompts "orchestrator" with
  | Raise e => Raise e
  | Ok fallback =>
      let prompt :=
        common_context agent_type iteration
        ++ PyDict.get agent_prompts agent_type fallback in
      let prompt := replace "{mastra}" (str_of_path MASTRA_BACKEND) prompt in
      let prompt := replace "{expo}" (str_of_path EXPO_APP) prompt in
      Ok (prompt ++ footer)
  end.

(** ** One agent iteration ([run_agent_iteration]) *)

(** A reading of [datetime.now()], by the two renderings the program uses. *)
Record instant : Type := mkInstant {
  strftime_compact : string;     (* [strftime('%Y%m%d-%H%M%S')] *)
  isoformat : string
}.

(** What lies outside the program: the agent runtime and the clock, each by
    the number of the call. *)
Record env : Type := mkEnv {
  rt : runtime;
  now : nat -> instant
}.

(** What the program changes: the text printed, the files written, the
    delays slept, and counts of the calls made to the outside. *)
Record world : Type := mkWorld {
  stdout : string;
  files : PyDict.dict string;       (* path to content *)
  slept : list Z;                   (* arguments of [asyncio.sleep] *)
  created : nat;                    (* calls of [create_client] *)
  clock_reads : nat;                (* calls of [datetime.now] *)
  calls : list Z                    (* iterations handed to the runner *)
}.

Definition world0 : world := mkWorld "" [] [] 0 0 [].

Definition print_end (s e : string) : M world unit :=
  fun w =>
    (mkWorld (stdout w ++ s ++ e) (files w) (slept w) (created w)
       (clock_reads w) (calls w), Ok tt).

Definition print (s : string) : M world unit := print_end s lf.

Definition sleep (secs : Z) : M world unit :=
  fun w =>
    (mkWorld (stdout w) (files w) (slept w ++ [secs]) (created w)
       (clock_reads w) (calls w), Ok tt).

Definition create_client (E : env) (p : path) (model : string)
  : M world client :=
  fun w =>
    let k := S (created w) in
    (mkWorld (stdout w) (files w) (slept w) k (clock_reads w) (calls w),
     rt E k (str_of_path p) model).

Definition datetime_now (E : env) : M world instant :=
  fun w =>
    (mkWorld (stdout w) (files w) (slept w) (created w)
       (S (clock_reads w)) (calls w),
     Ok (now E (clock_reads w))).

Definition enter_runner (iteration : Z) : M world unit :=
  fun w =>
    (mkWorld (stdout w) (files w) (slept w) (created w) (clock_reads w)
       (calls w ++ [iteration]), Ok tt).

(** A [write] on a file opened with mode ["a"]: the text goes after what the
    file holds; a missing file is created. *)
Definition append_file (p : path) (text : string) : M world unit :=
  fun w =>
    let before := PyDict.get (files w) p "" in
    (mkWorld (stdout w) (PyDict.insert (files w) p (before ++ text))
       (slept w) (created w) (clock_reads w) (calls w), Ok tt).

Definition rule (c : ascii) : string := repeat_char c 70.

(** The blocks of an [AssistantMessage]. *)
Fixpoint assistant_blocks (bs : list block) (response_text : string)
  : M world string :=
  match bs with
  | [] => ret response_text
  | TextBlock (Some text) :: bs' =>
      print_end text "" ;;
      assistant_blocks bs' (response_text ++ text)
  | ToolUseBlock name :: bs' =>
      let tool_name := match name with Some n => n | None => "unknown" end in
      print (lf ++ "[Tool: " ++ tool_name ++ "]") ;;
      assistant_blocks bs' response_text
  | _ :: bs' => assistant_blocks bs' response_text
  end.

(** The blocks of a [UserMessage]; the diagnostic is cut at 300
    characters. *)
Fixpoint user_blocks (bs : list block) : M world unit :=
  match bs with
  | [] => ret tt
  | ToolResultBlock is_error content :: bs' =>
      (if is_error
       then print ("   [Error] " ++ take 300 content)
       else print "   [Done]") ;;
      user_blocks bs'
  | _ :: bs' => user_blocks bs'
  end.

(** [async for msg in client.receive_response(): ...]. *)
Fixpoint receive_loop (r : response) (response_text : string)
  : M world string :=
  match r with
  | RDone => ret response_text
  | RRaise e => raise e
  | RYield msg rest =>
      response_text' <-
        match msg with
        | AssistantMessage (Some content) =>
            assistant_blocks content response_text
        | UserMessage (Some content) =>
            user_blocks content ;; ret response_text
        | _ => ret response_text
        end ;;
      receive_loop rest response_text'
  end.

Definition run_agent_iteration (E : env) (agent_type : string)
    (iteration : Z) (model : string) : M world (string * string) :=
  enter_runner iteration ;;
  print (lf ++ rule "=") ;;
  print ("  " ++ upper agent_type ++ " AGENT - Iteration "
         ++ str_of_int iteration) ;;
  print (rule "=" ++ lf) ;;
  client <- create_client E ECHO_MVP_DIR model ;;
  prompt <- lift (get_agent_prompt agent_type iteration) ;;
  try_except
    (async_with client
       (raising (query client prompt) ;;
        response_text <- receive_loop (receive_response client prompt) "" ;;
        print (lf ++ rule "-" ++ lf) ;;
        ret ("success", response_text)))
    (fun e =>
       print (lf ++ "Error in agent iteration: " ++ exn_str e) ;;
       ret ("error", exn_str e)).

(** The prompt of an iteration, as a string. *)
Definition prompt_text (agent_type : string) (iteration : Z) : string :=
  match get_agent_prompt agent_type iteration with
  | Ok prompt => prompt
  | Raise _ => ""
  end.

(** What the runner returns for a client and a prompt, read off the
    client: used to state what [run_agent_iteration] computes. *)
Definition outcome_for (c : client) (prompt : string)
  : result (string * string) :=
  match with_block_raise c prompt with
  | None =>
      Ok ("success",
          aggregated_text
            (events_of (stream_messages (receive_response c prompt))))
  | Some e => if is_Exception e then Ok ("error", exn_str e) else Raise e
  end.

(** [quiet w w']: from [w] to [w'] only the printed text has changed. *)
Definition quiet (w w' : world) : Prop :=
  files w' = files w /\ slept w' = slept w /\ created w' = created w
  /\ clock_reads w' = clock_reads w /\ calls w' = calls w.

(** ** The continuous loop ([run_continuous_build]) *)

(** [max_iterations and iteration > max_iterations]: [None] and [0] are
    false in a condition. *)
Definition max_reached (max_iterations : option Z) (iteration : Z) : bool :=
  match max_iterations with
  | None => false
  | Some n => (negb (n =? 0) && (n <? iteration))%bool
  end.

(** [max_iterations or 'Unlimited'], formatted. *)
Definition max_or_unlimited (max_iterations : option Z) : string :=
  match max_iterations with
  | None => "Unlimited"
  | Some n => if n =? 0 then "Unlimited" else str_of_int n
  end.

(** [max_iterations is None or iteration < max_iterations]. *)
Definition more_to_come (max_iterations : option Z) (iteration : Z) : bool :=
  match max_iterations with
  | None => true
  | Some n => iteration <? n
  end.

(** The entry written to the session log for one iteration. *)
Definition log_entry (E : env) (session_log : path) (iteration : Z)
    (response : string) : M world unit :=
  append_file session_log (lf ++ rule "=" ++ lf) ;;
  t <- datetime_now E ;;
  append_file session_log
    ("Iteration " ++ str_of_int iteration ++ " - " ++ isoformat t ++ lf) ;;
  append_file session_log (rule "=" ++ lf) ;;
  append_file session_log response ;;
  append_file session_log lf.

(** One pass through the body of [while True], after [iteration += 1];
    [false] is the [break]. *)
Definition loop_body (E : env) (agent_type : string)
    (max_iterations : option Z) (model : string) (session_log : path)
    (iteration : Z) : M world bool :=
  if max_reached max_iterations iteration then
    print (lf ++ "Reached max iterations ("
           ++ match max_iterations with
              | Some n => str_of_int n
              | None => "None"
              end ++ ")") ;;
    ret false
  else
    outcome <- run_agent_iteration E agent_type iteration model ;;
    let '(status, response) := outcome in
    log_entry E session_log iteration response ;;
    (if String.eqb status "success" then
       print (lf ++ "Iteration " ++ str_of_int iteration
              ++ " complete. Continuing in "
              ++ str_of_int AUTO_CONTINUE_DELAY ++ "s...") ;;
       sleep AUTO_CONTINUE_DELAY
     else
       print (lf ++ "Iteration " ++ str_of_int iteration
              ++ " encountered error. Retrying in "
              ++ str_of_int AUTO_CONTINUE_DELAY ++ "s...") ;;
       sleep AUTO_CONTINUE_DELAY) ;;
    (if more_to_come max_iterations iteration then
       print (lf ++ "Preparing next iteration..." ++ lf) ;;
       sleep 1
     else ret tt) ;;
    ret true.

(** [while True] cut at [fuel] passes: [Some i] when the loop has broken with
    the counter at [i], [None] when it is still running. *)
Fixpoint while_true (fuel : nat) (body : Z -> M world bool) (iteration : Z)
  : M world (option Z) :=
  match fuel with
  | O => ret None
  | S fuel' =>
      let iteration := iteration + 1 in
      continue <- body iteration ;;
      if continue then while_true fuel' body iteration
      else ret (Some iteration)
  end.

(** The text of one log entry. *)
Definition entry_text (iteration : Z) (t : instant) (response : string)
  : string :=
  (lf ++ rule "=" ++ lf)
  ++ ("Iteration " ++ str_of_int iteration ++ " - " ++ isoformat t ++ lf)
  ++ (rule "=" ++ lf)
  ++ response
  ++ lf.

(** The delays slept at the end of one pass. *)
Definition delays (max_iterations : option Z) (iteration : Z) : list Z :=
  AUTO_CONTINUE_DELAY
  :: (if more_to_come max_iterations iteration then [1] else []).

(** The iteration numbers [1 .. j]. *)
Definition iterations (j : nat) : list Z := map Z.of_nat (seq 1 j).

(** An environment whose runtime always hands out a client, and whose
    clients raise instances of [Exception] only. *)
Definition dependable (E : env) : Prop :=
  forall (k : nat) (p model : string),
    exists c,
      rt E k p model = Ok c
      /\ forall prompt e,
           with_block_raise c prompt = Some e -> is_Exception e = true.

(** What the runner returns at its [call]-th creation of a client. *)
Definition iteration_outcome (E : env) (agent_type model : string)
    (call : nat) (iteration : Z) : result (string * string) :=
  match rt E call (str_of_path ECHO_MVP_DIR) model with
  | Raise e => Raise e
  | Ok c =>
      match get_agent_prompt agent_type iteration with
      | Raise e => Raise e
      | Ok prompt => outcome_for c prompt
      end
  end.

Definition response_of (r : result (string * string)) : string :=
  match r with
  | Ok (_, response) => response
  | Raise _ => ""
  end.

(** The entry that pass [n] (from 1) writes, in a loop entered after
    [created0] creations of a client and [clock0] readings of the clock. *)
Definition logged (E : env) (agent_type model : string)
    (created0 clock0 : nat) (n : nat) : string :=
  entry_text (Z.of_nat n) (now E (clock0 + n - 1))
    (response_of
       (iteration_outcome E agent_type model (created0 + n) (Z.of_nat n))).

Definition logs_dir : path := path_div ECHO_MVP_DIR "logs".

Definition session_log_path (agent_type : string) (t : instant) : path :=
  path_div logs_dir
    (agent_type ++ "-session-" ++ strftime_compact t ++ ".txt").

(** The function up to [fuel] passes of its loop.  Creating the logs
    directory leaves the modelled files as they are. *)
Definition run_continuous_build (fuel : nat) (E : env) (agent_type : string)
    (max_iterations : option Z) (model : string) : M world (option Z) :=
  print (lf ++ rule "=") ;;
  print "  LIFEOS AUTONOMOUS BUILDER" ;;
  print (rule "=") ;;
  print (lf ++ "Agent Type: " ++ agent_type) ;;
  print ("Model: " ++ model) ;;
  print ("Max Iterations: " ++ max_or_unlimited max_iterations) ;;
  print ("Project: " ++ str_of_path ECHO_MVP_DIR) ;;
  print (lf ++ rule "=" ++ lf) ;;
  t <- datetime_now E ;;
  let session_log := session_log_path agent_type t in
  ended <-
    while_true fuel (loop_body E agent_type max_iterations model session_log)
      0 ;;
  match ended with
  | None => ret None
  | Some iteration =>
      print (lf ++ rule "=") ;;
      print "  BUILD SESSION COMPLETE" ;;
      print (rule "=") ;;
      print (lf ++ "Agent: " ++ agent_type) ;;
      print ("Iterations: " ++ str_of_int iteration) ;;
      print ("Session log: " ++ str_of_path session_log) ;;
      print (lf ++ rule "=" ++ lf) ;;
      ret (Some iteration)
  end.

(** What [j] full passes of the loop of one run leave behind, from the world
    [w] in which [run_continuous_build] was entered to the world [w']: the
    session log has grown by the entries of the passes [1 .. j] in that
    order, no other file has changed, and the delays, the clients created and
    the calls of the runner are those of the passes. *)
Definition after_passes (E : env) (agent_type model : string)
    (max_iterations : option Z) (j : nat) (w w' : world) : Prop :=
  let log := session_log_path agent_type (now E (clock_reads w)) in
  PyDict.get (files w') log ""
  = PyDict.get (files w) log ""
    ++ concat
         (map (logged E agent_type model (created w) (S (clock_reads w)))
            (seq 1 j))
  /\ (forall p, p <> log ->
        PyDict.lookup (files w') p = PyDict.lookup (files w) p)
  /\ slept w' = (slept w ++ flat_map (delays max_iterations) (iterations j))%list
  /\ created w' = (created w + j)%nat
  /\ calls w' = (calls w ++ iterations j)%list.

(** An environment whose runtime always hands out the client [c], with a
    clock that shows nothing. *)
Definition handing (c : client) : env :=
  mkEnv (fun _ _ _ => Ok c) (fun _ => mkInstant "" "").

(** A client whose [query] raises [e]. *)
Definition refusing (e : exn) : client :=
  mkClient None (fun _ => Some e) (fun _ => RDone) None.

(** An environment whose runtime always hands out the client streaming
    [ms], with a clock that shows nothing. *)
Definition serving (ms : list message) : env :=
  mkEnv (fun _ _ _ => Ok (streaming ms)) (fun _ => mkInstant "" "").

(** ** Further views of the builder, used to state its properties *)

(** The four replacements of the program, applied once more to a text. *)
Definition resubstitute (s : string) : string :=
  replace "{expo}" (str_of_path EXPO_APP)
    (replace "{mastra}" (str_of_path MASTRA_BACKEND)
       (replace "{echo}" (str_of_path ECHO_MVP_DIR)
          (replace "{root}" (str_of_path LIFEOS_ROOT) s))).

(** What the runner prints for one response event. *)
Definition echo (ev : ResponseEvent) : string :=
  match ev with
  | TextFragment content => content
  | ToolInvocation name => (lf ++ "[Tool: " ++ name ++ "]") ++ lf
  | ToolResult true content => ("   [Error] " ++ take 300 content) ++ lf
  | ToolResult false _ => "   [Done]" ++ lf
  end.

(** What the runner prints before it creates the client. *)
Definition runner_banner (agent_type : string) (iteration : Z) : string :=
  ((lf ++ rule "=") ++ lf)
  ++ (("  " ++ upper agent_type ++ " AGENT - Iteration "
       ++ str_of_int iteration) ++ lf)
  ++ ((rule "=" ++ lf) ++ lf).

(** The events the runner has consumed on a client when its session ends. *)
Definition consumed (c : client) (prompt : string) : list ResponseEvent :=
  match aenter c, query c prompt with
  | None, None => events_of (stream_messages (receive_response c prompt))
  | _, _ => []
  end.

(** What the runner prints last: the rule after a response consumed to its
    end, or the line that reports the exception. *)
Definition runner_closing (c : client) (prompt : string) : string :=
  match with_block_raise c prompt with
  | None => (lf ++ rule "-" ++ lf) ++ lf
  | Some e =>
      match aenter c, query c prompt,
            stream_raise (receive_response c prompt) with
      | None, None, None =>
          ((lf ++ rule "-" ++ lf) ++ lf)
          ++ (lf ++ "Error in agent iteration: " ++ exn_str e) ++ lf
      | _, _, _ => (lf ++ "Error in agent iteration: " ++ exn_str e) ++ lf
      end
  end.

(** The summary printed when the loop has ended. *)
Definition summary_text (agent_type : string) (iteration : Z)
    (session_log : path) : string :=
  ((lf ++ rule "=") ++ lf)
  ++ ("  BUILD SESSION COMPLETE" ++ lf)
  ++ (rule "=" ++ lf)
  ++ ((lf ++ "Agent: " ++ agent_type) ++ lf)
  ++ (("Iterations: " ++ str_of_int iteration) ++ lf)
  ++ (("Session log: " ++ str_of_path session_log) ++ lf)
  ++ ((lf ++ rule "=" ++ lf) ++ lf).

(** The sum of the delays slept. *)
Definition total (l : list Z) : Z := fold_right Z.add 0 l.

(** An environment whose runtime hands out a client at each of its first
    [j] calls after the [n]-th, clients that raise instances of [Exception]
    only. *)
Definition dependable_for (E : env) (n j : nat) : Prop :=
  forall (k : nat) (p model : string),
    (n < k <= n + j)%nat ->
    exists c,
      rt E k p model = Ok c
      /\ forall prompt e,
           with_block_raise c prompt = Some e -> is_Exception e = true.

(** A runtime that hands out the client [c] at its first [j] calls and
    raises [e] afterwards. *)
Definition failing_after (j : nat) (c : client) (e : exn) : env :=
  mkEnv (fun k _ _ => if (k <=? j)%nat then Ok c else Raise e)
        (fun _ => mkInstant "" "").

End Builder.
(** ** The single-shot wrapper ([claude_code_wrapper.py]) *)

Module Wrapper.
Import PyStr Runtime.

(** The values handed to [json.dumps]. *)
#[warnings="-register-all"]
Inductive json : Type :=
| JString (s : string)
| JArray (items : list json)
| JObject (members : list (string * json)).

Definition LIFEOS_ROOT : string := "/home/louisdup/Agents/lifeOS".

(** Standard output is the sequence of values printed, one
    [print(json.dumps(v))] each, and [created] counts the calls of
    [create_client]. *)
Record world : Type := mkWorld {
  stdout : list json;
  created : nat
}.

Definition world0 : world := mkWorld [] 0.

Definition print_json (v : json) : M world unit :=
  fun w => (mkWorld (stdout w ++ [v]) (created w), Ok tt).

Definition create_client (rt : runtime) (p model : string) : M world client :=
  fun w =>
    let k := S (created w) in
    (mkWorld (stdout w) k, rt k p model).

(** [sys.exit(code)]. *)
Definition sys_exit {A} (code : Z) : M world A := raise (SystemExit code).

Definition text_record (content : string) : json :=
  JObject [("type", JString "text"); ("content", JString content)].

Definition tool_record (name : string) : json :=
  JObject [("type", JString "tool"); ("name", JString name)].

Definition tool_error_record (content : string) : json :=
  JObject [("type", JString "tool_error"); ("content", JString content)].

Definition complete_record (response : string) (tools_used : list string)
  : json :=
  JObject [("type", JString "complete");
           ("response", JString response);
           ("tools_used", JArray (map JString tools_used))].

Definition error_record (error : string) : json :=
  JObject [("type", JString "error"); ("error", JString error)].

(** The blocks of an [AssistantMessage], over the pair of [response_text]
    and [tool_uses]. *)
Fixpoint assistant_blocks (bs : list block) (acc : string * list string)
  : M world (string * list string) :=
  match bs with
  | [] => ret acc
  | TextBlock (Some text) :: bs' =>
      print_json (text_record text) ;;
      assistant_blocks bs' (fst acc ++ text, snd acc)
  | ToolUseBlock name :: bs' =>
      let tool_name := match name with Some n => n | None => "unknown" end in
      print_json (tool_record tool_name) ;;
      assistant_blocks bs' (fst acc, (snd acc ++ [tool_name])%list)
  | _ :: bs' => assistant_blocks bs' acc
  end.

(** The blocks of a [UserMessage]; the diagnostic is cut at 500
    characters. *)
Fixpoint user_blocks (bs : list block) : M world unit :=
  match bs with
  | [] => ret tt
  | ToolResultBlock is_error content :: bs' =>
      (if is_error
       then print_json (tool_error_record (take 500 content))
       else ret tt) ;;
      user_blocks bs'
  | _ :: bs' => user_blocks bs'
  end.

Fixpoint receive_loop (r : response) (acc : string * list string)
  : M world (string * list string) :=
  match r with
  | RDone => ret acc
  | RRaise e => raise e
  | RYield msg rest =>
      acc' <-
        match msg with
        | AssistantMessage (Some content) => assistant_blocks content acc
        | UserMessage (Some content) => user_blocks content ;; ret acc
        | _ => ret acc
        end ;;
      receive_loop rest acc'
  end.

Definition send_message (rt : runtime) (message : string)
    (working_dir : option string) : M world unit :=
  let working_dir :=
    match working_dir with
    | None => LIFEOS_ROOT
    | Some d => d
    end in
  try_except
    (client <- create_client rt working_dir "claude-sonnet-4-5" ;;
     collected <-
       async_with client
         (raising (query client message) ;;
          receive_loop (receive_response client message) ("", [])) ;;
     print_json (complete_record (fst collected) (snd collected)))
    (fun e =>
       print_json (error_record (exn_str e)) ;;
       sys_exit 1).

(** [main()], with [sys.argv] as its argument. *)
Definition main (rt : runtime) (argv : list string) : M world unit :=
  if (length argv <? 2)%nat then
    print_json (JObject [("error", JString "No message provided")]) ;;
    sys_exit 1
  else
    let message := nth 1 argv "" in
    let working_dir :=
      if (2 <? length argv)%nat then Some (nth 2 argv "") else None in
    send_message rt message working_dir.

(** The value of the [type] member of a record, if it has one. *)
Definition kind (v : json) : option string :=
  match v with
  | JObject (("type", JString k) :: _) => Some k
  | _ => None
  end.

Definition event_kinds : list string :=
  ["text"; "tool"; "tool_error"; "complete"; "error"].

(** The events for which the wrapper prints a record: all but the tool
    results that are not errors. *)
Definition reported (ev : ResponseEvent) : bool :=
  match ev with
  | ToolResult false _ => false
  | _ => true
  end.

Definition record (ev : ResponseEvent) : json :=
  match ev with
  | TextFragment content => text_record content
  | ToolInvocation name => tool_record name
  | ToolResult _ content => tool_error_record (take 500 content)
  end.

Definition records_of (evs : list ResponseEvent) : list json :=
  map record (filter reported evs).

(** For the outcome [r] of [create_client]: the exception that reaches the
    [except] clause of [send_message], and the events consumed before. *)
Definition failure (r : result client) (message : string) : option exn :=
  match r with
  | Raise e => Some e
  | Ok c => with_block_raise c message
  end.

Definition streamed (r : result client) (message : string)
  : list ResponseEvent :=
  match r with
  | Raise _ => []
  | Ok c =>
      match aenter c, query c message with
      | None, None => events_of (stream_messages (receive_response c message))
      | _, _ => []
      end
  end.

(** The last record printed and the way [send_message] ends. *)
Definition ending (r : result client) (message : string)
  : json * result unit :=
  match failure r message with
  | None =>
      (complete_record (aggregated_text (streamed r message))
         (tool_names (streamed r message)),
       Ok tt)
  | Some e => (error_record (exn_str e), Raise (SystemExit 1))
  end.

(** What [send_message] prints after the records of the events, and the way
    it ends, whatever the class of the exception: the [except] clause
    prints the [error] record for an instance of [Exception] and lets any
    other exception pass. *)
Definition closing (r : result client) (message : string)
  : list json * result unit :=
  match failure r message with
  | None =>
      ([complete_record (aggregated_text (streamed r message))
          (tool_names (streamed r message))],
       Ok tt)
  | Some e =>
      if is_Exception e
      then ([error_record (exn_str e)], Raise (SystemExit 1))
      else ([], Raise e)
  end.

(** A runtime that always hands out the client streaming [ms]. *)
Definition serving (ms : list message) : runtime :=
  fun _ _ _ => Ok (streaming ms).

(** The contents of the [text] records of an output, put together, and the
    names of its [tool] records. *)
Fixpoint texts_printed (out : list json) : string :=
  match out with
  | [] => ""
  | JObject [("type", JString "text"); ("content", JString content)] :: out' =>
      content ++ texts_printed out'
  | _ :: out' => texts_printed out'
  end.

Fixpoint tools_printed (out : list json) : list string :=
  match out with
  | [] => []
  | JObject [("type", JString "tool"); ("name", JString name)] :: out' =>
      name :: tools_printed out'
  | _ :: out' => tools_printed out'
  end.

End Wrapper.
(** * Properties *)

(** ** Strings *)

Import PyStr.

Lemma string_app_assoc (a b c : string) : (a ++ b) ++ c = a ++ (b ++ c).
Proof. induction a as [|x a IH]; simpl; [reflexivity | now rewrite IH]. Qed.

Lemma string_app_nil_r (a : string) : a ++ "" = a.
Proof. induction a as [|x a IH]; simpl; [reflexivity | now rewrite IH]. Qed.

Lemma prefix_self_app (sub b : string) : prefix sub (sub ++ b) = true.
Proof.
  induction sub as [|x sub IH]; simpl.
  - now destruct b.
  - destruct (ascii_dec x x) as [_|n]; [exact IH | now destruct n].
Qed.

Lemma prefix_app_l (sub a b : string) :
  prefix sub a = true -> prefix sub (a ++ b) = true.
Proof.
  revert a; induction sub as [|x sub IH]; intros a H.
  - now destruct (a ++ b).
  - destruct a as [|y a]; simpl in *; [discriminate|].
    destruct (ascii_dec x y); [now apply IH | discriminate].
Qed.

Lemma prefix_length (sub a : string) :
  prefix sub a = true -> (String.length sub <= String.length a)%nat.
Proof.
  revert a; induction sub as [|x sub IH]; intros a H; simpl; [lia|].
  destruct a as [|y a]; simpl in *; [discriminate|].
  destruct (ascii_dec x y); [apply IH in H; lia | discriminate].
Qed.

Lemma prefix_split (sub a : string) :
  prefix sub a = true -> exists b, a = sub ++ b.
Proof.
  revert a; induction sub as [|x sub IH]; intros a H.
  - now exists a.
  - destruct a as [|y a]; simpl in *; [discriminate|].
    destruct (ascii_dec x y) as [->|]; [|discriminate].
    destruct (IH _ H) as [b ->]. now exists b.
Qed.

(** *** Substring search *)

Lemma contains_unfold (sub s : string) :
  contains sub s
  = (prefix sub s
     || match s with
        | EmptyString => false
        | String _ s' => contains sub s'
        end)%bool.
Proof. destruct s; reflexivity. Qed.

Lemma contains_prefix (sub b : string) : contains sub (sub ++ b) = true.
Proof. now rewrite contains_unfold, prefix_self_app. Qed.

Lemma contains_app_r (sub a b : string) :
  contains sub b = true -> contains sub (a ++ b) = true.
Proof.
  intros H; induction a as [|x a IH]; [exact H|].
  change (String x a ++ b) with (String x (a ++ b)).
  rewrite contains_unfold, IH. apply orb_true_r.
Qed.

Lemma contains_app_l (sub a b : string) :
  contains sub a = true -> contains sub (a ++ b) = true.
Proof.
  induction a as [|x a IH]; rewrite contains_unfold; intros H.
  - rewrite orb_false_r in H. destruct sub; [|discriminate].
    rewrite contains_unfold. simpl. now destruct b.
  - change (String x a ++ b) with (String x (a ++ b)).
    rewrite contains_unfold.
    apply orb_true_iff in H as [H|H].
    + apply (prefix_app_l _ (String x a) b) in H.
      change (String x a ++ b) with (String x (a ++ b)) in H.
      now rewrite H.
    + rewrite (IH H). apply orb_true_r.
Qed.

(** [contains] is the search for an occurrence. *)
Lemma contains_spec (sub s : string) :
  contains sub s = true <-> exists a b, s = a ++ sub ++ b.
Proof.
  split.
  - induction s as [|x s IH]; rewrite contains_unfold; intros H.
    + rewrite orb_false_r in H. destruct sub; [|discriminate].
      now exists "", "".
    + apply orb_true_iff in H as [H|H].
      * apply prefix_split in H as [b Hb]. now exists "", b.
      * destruct (IH H) as (a & b & ->). now exists (String x a), b.
  - intros (a & b & ->). apply contains_app_r, contains_prefix.
Qed.

Lemma lacks_app (c : ascii) (a b : string) :
  lacks c (a ++ b) = (lacks c a && lacks c b)%bool.
Proof.
  induction a as [|x a IH]; simpl; [reflexivity|].
  now rewrite IH, andb_assoc.
Qed.

Lemma lacks_head (c o : ascii) (s : string) :
  lacks c (String o s) = true -> o <> c.
Proof.
  simpl. intros H ->. now rewrite Ascii.eqb_refl in H.
Qed.

Lemma prefix_head_ne (o x : ascii) (sub s : string) :
  x <> o -> prefix (String o sub) (String x s) = false.
Proof.
  intros H; simpl. destruct (ascii_dec o x) as [->|]; [now destruct H | reflexivity].
Qed.

Lemma contains_lacks_app (o : ascii) (sub a b : string) :
  lacks o a = true ->
  contains (String o sub) (a ++ b) = contains (String o sub) b.
Proof.
  induction a as [|x a IH]; intros H; [reflexivity|].
  pose proof (lacks_head _ _ _ H) as Hx.
  simpl in H. apply andb_true_iff in H as [_ H].
  change (String x a ++ b) with (String x (a ++ b)).
  cbn [contains]. rewrite (prefix_head_ne o x sub (a ++ b) Hx).
  now rewrite IH.
Qed.

Lemma upper_char_brace (c : ascii) :
  Ascii.eqb c "{" = false -> Ascii.eqb (upper_char c) "{" = false.
Proof.
  destruct c as [[] [] [] [] [] [] [] []]; intros H; vm_compute in H |- *;
    congruence.
Qed.

Lemma lacks_upper (s : string) :
  lacks "{" s = true -> lacks "{" (upper s) = true.
Proof.
  induction s as [|x s IH]; simpl; [reflexivity|].
  intros H. apply andb_true_iff in H as [Hx Hs].
  apply negb_true_iff in Hx.
  now rewrite (upper_char_brace _ Hx), (IH Hs).
Qed.

Lemma lacks_uint (d : Decimal.uint) :
  lacks "{" (NilEmpty.string_of_uint d) = true.
Proof. induction d; simpl; auto. Qed.

Lemma lacks_str_of_int (n : Z) : lacks "{" (str_of_int n) = true.
Proof.
  unfold str_of_int, NilZero.string_of_int, NilZero.string_of_uint.
  destruct (Z.to_int n) as [d|d]; destruct d; simpl; auto using lacks_uint.
Qed.

(** *** Replacement *)

Lemma prefix_app_sep (c : ascii) (old x b : string) :
  lacks c old = true ->
  prefix old (x ++ String c b) = prefix old x.
Proof.
  revert x; induction old as [|o old IH]; intros x H.
  - now destruct x.
  - pose proof (lacks_head _ _ _ H) as Ho.
    simpl in H. apply andb_true_iff in H as [_ H].
    destruct x as [|y x]; simpl.
    + destruct (ascii_dec o c); [contradiction | reflexivity].
    + destruct (ascii_dec o y); [now apply IH | reflexivity].
Qed.

(** A character that [old] does not hold cuts the text in two parts that
    are replaced apart. *)
Lemma replace_from_sep (c : ascii) (old new b : string) :
  old <> "" -> lacks c old = true ->
  forall (a : string) (k : nat),
    (k <= String.length a)%nat ->
    replace_from k old new (a ++ String c b)
    = replace_from k old new a ++ String c (replace_from 0 old new b).
Proof.
  intros Hne Hc. induction a as [|x a IH]; intros k Hk.
  - simpl in Hk. assert (k = 0)%nat as -> by lia.
    destruct old as [|o old]; [contradiction|].
    pose proof (lacks_head _ _ _ Hc) as Ho.
    cbn [append replace_from].
    rewrite (prefix_head_ne o c old b); [reflexivity | congruence].
  - change (String x a ++ String c b) with (String x (a ++ String c b)).
    destruct k as [|k]; cbn [replace_from].
    + change (String x (a ++ String c b)) with (String x a ++ String c b).
      rewrite (prefix_app_sep c old (String x a) b Hc).
      destruct (prefix old (String x a)) eqn:P.
      * apply prefix_length in P. simpl in P.
        rewrite IH by lia. now rewrite string_app_assoc.
      * rewrite IH by lia. reflexivity.
    + simpl in Hk. apply IH. lia.
Qed.

Lemma ends_with_split (c : ascii) (a : string) :
  ends_with c a = true -> exists a', a = a' ++ String c "".
Proof.
  induction a as [|x a IH]; [discriminate|].
  destruct a as [|y a].
  - simpl. intros H. apply Ascii.eqb_eq in H as ->. now exists "".
  - intros H. change (ends_with c (String y a) = true) in H.
    destruct (IH H) as [a' ->]. now exists (String x a').
Qed.

Lemma ends_with_app (c : ascii) (a b : string) :
  ends_with c b = true -> ends_with c (a ++ b) = true.
Proof.
  intros H. induction a as [|x a IH]; [exact H|].
  simpl. destruct (a ++ b) eqn:E; [|exact IH].
  destruct a; simpl in E; [subst b|]; discriminate.
Qed.

Lemma replace_app_ends (c : ascii) (old new a b : string) :
  old <> "" -> lacks c old = true -> ends_with c a = true ->
  replace old new (a ++ b) = replace old new a ++ replace old new b.
Proof.
  intros Hne Hc Ha. destruct (ends_with_split _ _ Ha) as [a' ->].
  destruct old as [|o old]; [contradiction|]. unfold replace.
  rewrite string_app_assoc. cbn [append].
  rewrite !(replace_from_sep c (String o old) new) by (auto; lia).
  rewrite string_app_assoc. reflexivity.
Qed.

Lemma ends_with_replace (c : ascii) (old new a : string) :
  old <> "" -> lacks c old = true -> ends_with c a = true ->
  ends_with c (replace old new a) = true.
Proof.
  intros Hne Hc Ha. destruct (ends_with_split _ _ Ha) as [a' ->].
  destruct old as [|o old]; [contradiction|]. unfold replace.
  rewrite (replace_from_sep c (String o old) new) by (auto; lia).
  apply ends_with_app. simpl. apply Ascii.eqb_refl.
Qed.

Lemma replace_lacks (o : ascii) (old new s : string) :
  lacks o s = true -> replace (String o old) new s = s.
Proof.
  unfold replace. induction s as [|x s IH]; intros H; [reflexivity|].
  pose proof (lacks_head _ _ _ H) as Hx.
  simpl in H. apply andb_true_iff in H as [_ H].
  cbn [replace_from]. rewrite (prefix_head_ne o x old s Hx).
  now rewrite (IH H).
Qed.

(** ** Prompt construction *)

Import Builder.

Lemma lookup_absent {V} (d : PyDict.dict V) (k : string) :
  ~ In k (PyDict.keys d) -> PyDict.lookup d k = None.
Proof.
  induction d as [|[k' v] d IH]; simpl; intros H; [reflexivity|].
  destruct (String.eqb_spec k' k) as [->|_]; [now destruct H; left|].
  apply IH. intros Hin. apply H. now right.
Qed.

Lemma agent_prompts_keys :
  PyDict.keys agent_prompts
  = ["database"; "email"; "calendar"; "memory"; "frontend"; "backend";
     "orchestrator"].
Proof. reflexivity. Qed.

Lemma orchestrator_body :
  PyDict.getitem agent_prompts "orchestrator" = Ok body_orchestrator.
Proof. reflexivity. Qed.

Lemma common_context_ends (role : string) (iteration : Z) :
  ends_with lf_char (common_context role iteration) = true.
Proof.
  unfold common_context. do 12 apply ends_with_app. reflexivity.
Qed.

Lemma common_context_lacks (role : string) (iteration : Z) :
  lacks "{" role = true -> lacks "{" (common_context role iteration) = true.
Proof.
  intros H. unfold common_context. rewrite !lacks_app.
  rewrite (lacks_upper _ H), H, lacks_str_of_int. reflexivity.
Qed.

Lemma resolve_paths_app (a b : string) :
  ends_with lf_char a = true ->
  resolve_paths (a ++ b) = resolve_paths a ++ resolve_paths b.
Proof.
  intros H. unfold resolve_paths.
  rewrite (replace_app_ends lf_char "{mastra}") by (auto; discriminate).
  rewrite (replace_app_ends lf_char "{expo}"); [reflexivity | discriminate | reflexivity |].
  apply ends_with_replace; auto; discriminate.
Qed.

Lemma resolve_paths_lacks (s : string) :
  lacks "{" s = true -> resolve_paths s = s.
Proof.
  intros H. unfold resolve_paths.
  rewrite (replace_lacks "{" "mastra}" _ s H).
  apply (replace_lacks "{" "expo}" _ s H).
Qed.

Lemma resolve_paths_unfold (s : string) :
  replace "{expo}" (str_of_path EXPO_APP)
    (replace "{mastra}" (str_of_path MASTRA_BACKEND) s)
  = resolve_paths s.
Proof. reflexivity. Qed.

(** The prompt is the resolved header, the resolved task body and the
    footer, in that order. *)
Lemma get_agent_prompt_sections (role : string) (iteration : Z) :
  get_agent_prompt role iteration
  = Ok (resolve_paths (common_context role iteration)
        ++ resolve_paths (PyDict.get agent_prompts role body_orchestrator)
        ++ footer).
Proof.
  unfold get_agent_prompt. rewrite orchestrator_body. cbv zeta.
  rewrite resolve_paths_unfold.
  rewrite resolve_paths_app by apply common_context_ends.
  rewrite string_app_assoc. reflexivity.
Qed.

Lemma token_absent (token header rest : string) :
  In token placeholders ->
  lacks "{" header = true ->
  (forall t, In t placeholders -> contains t rest = false) ->
  contains token (header ++ rest) = false.
Proof.
  intros Hin Hh Hrest. rewrite <- (Hrest token Hin).
  destruct Hin as [<-|[<-|[<-|[<-|[]]]]]; now apply contains_lacks_app.
Qed.

Lemma iteration_shown (role rest : string) (iteration : Z) :
  contains (str_of_int iteration) (common_context role iteration ++ rest)
  = true.
Proof.
  apply contains_app_l. unfold common_context.
  do 9 apply contains_app_r. apply contains_prefix.
Qed.

Lemma recognized_lacks (role : string) :
  In role (PyDict.keys agent_prompts) -> lacks "{" role = true.
Proof.
  rewrite agent_prompts_keys.
  intros [<-|[<-|[<-|[<-|[<-|[<-|[<-|[]]]]]]]]; reflexivity.
Qed.

Lemma recognized_body_resolved (role token : string) :
  In role (PyDict.keys agent_prompts) ->
  In token placeholders ->
  contains token
    (resolve_paths (PyDict.get agent_prompts role body_orchestrator)
     ++ footer) = false.
Proof.
  rewrite agent_prompts_keys.
  intros [<-|[<-|[<-|[<-|[<-|[<-|[<-|[]]]]]]]] [<-|[<-|[<-|[<-|[]]]]];
    vm_compute; reflexivity.
Qed.

Lemma orchestrator_body_resolved :
  resolve_paths body_orchestrator = body_orchestrator.
Proof. vm_compute. reflexivity. Qed.

Lemma orchestrator_get :
  PyDict.get agent_prompts "orchestrator" body_orchestrator
  = body_orchestrator.
Proof. vm_compute. reflexivity. Qed.

(** C4.  For each of the seven roles of the template registry and every
    iteration number, [get_agent_prompt] returns a prompt in which none of
    the placeholder tokens [{mastra}], [{expo}], [{root}], [{echo}] occurs
    and in which the decimal form of the iteration number occurs. *)
Theorem recognized_role_prompt_resolved (role : string) (iteration : Z) :
  In role (PyDict.keys agent_prompts) ->
  exists prompt,
    get_agent_prompt role iteration = Ok prompt
    /\ (forall token, In token placeholders -> contains token prompt = false)
    /\ contains (str_of_int iteration) prompt = true.
Proof.
  intros Hrole. eexists. split; [apply get_agent_prompt_sections|].
  pose proof (common_context_lacks role iteration (recognized_lacks _ Hrole))
    as Hhead.
  rewrite (resolve_paths_lacks _ Hhead). split.
  - intros token Htoken. apply token_absent; auto.
    intros t Ht. now apply recognized_body_resolved.
  - apply iteration_shown.
Qed.

Lemma recognized_role_prompt_resolved_witness :
  exists prompt,
    get_agent_prompt "email" 7 = Ok prompt
    /\ (forall token, In token placeholders -> contains token prompt = false)
    /\ contains "7" prompt = true.
Proof.
  apply (recognized_role_prompt_resolved "email" 7).
  vm_compute. auto.
Defined.

(** C5.  For a role that is not a key of the template registry,
    [get_agent_prompt] returns (the lookup of the fallback does not raise)
    and the prompt is the header written for that role, then the task body
    registered for the orchestrator, then the footer: the same body and
    footer as in the prompt of the orchestrator itself. *)
Theorem unknown_role_uses_orchestrator_body (role : string) (iteration : Z) :
  ~ In role (PyDict.keys agent_prompts) ->
  PyDict.getitem agent_prompts "orchestrator" = Ok body_orchestrator
  /\ get_agent_prompt role iteration
     = Ok (resolve_paths (common_context role iteration)
           ++ body_orchestrator ++ footer)
  /\ get_agent_prompt "orchestrator" iteration
     = Ok (common_context "orchestrator" iteration
           ++ body_orchestrator ++ footer).
Proof.
  intros Hrole. split; [exact orchestrator_body|]. split.
  - rewrite get_agent_prompt_sections. unfold PyDict.get at 1.
    rewrite (lookup_absent _ _ Hrole), orchestrator_body_resolved.
    reflexivity.
  - rewrite get_agent_prompt_sections, orchestrator_get,
      orchestrator_body_resolved.
    rewrite resolve_paths_lacks; [reflexivity|].
    now apply common_context_lacks.
Qed.

Lemma unknown_role_uses_orchestrator_body_witness :
  get_agent_prompt "tester" 1
  = Ok (resolve_paths (common_context "tester" 1)
        ++ body_orchestrator ++ footer).
Proof.
  refine (proj1 (proj2 (unknown_role_uses_orchestrator_body "tester" 1 _))).
  vm_compute. intuition discriminate.
Defined.

(** ** One agent iteration *)

Import Runtime.

Lemma quiet_refl (w : world) : quiet w w.
Proof. repeat split. Qed.

Lemma quiet_trans (w1 w2 w3 : world) : quiet w1 w2 -> quiet w2 w3 -> quiet w1 w3.
Proof.
  unfold quiet. intros (a1 & a2 & a3 & a4 & a5) (b1 & b2 & b3 & b4 & b5).
  repeat split; congruence.
Qed.

Lemma print_end_quiet (s e : string) (w : world) :
  exists w', print_end s e w = (w', Ok tt) /\ quiet w w'.
Proof. eexists. split; [reflexivity|]. repeat split. Qed.

Lemma print_quiet (s : string) (w : world) :
  exists w', print s w = (w', Ok tt) /\ quiet w w'.
Proof. apply print_end_quiet. Qed.

Lemma bind_ok {S A B} (m : M S A) (k : A -> M S B) (s s' : S) (a : A) :
  m s = (s', Ok a) -> bind m k s = k a s'.
Proof. unfold bind. now intros ->. Qed.

Lemma bind_raise {S A B} (m : M S A) (k : A -> M S B) (s s' : S) (e : exn) :
  m s = (s', Raise e) -> bind m k s = (s', Raise e).
Proof. unfold bind. now intros ->. Qed.

Lemma aggregated_text_app (a b : list ResponseEvent) :
  aggregated_text (a ++ b) = aggregated_text a ++ aggregated_text b.
Proof.
  induction a as [|[t|n|x y] a IH]; simpl; auto.
  now rewrite IH, string_app_assoc.
Qed.

Lemma tool_names_app (a b : list ResponseEvent) :
  tool_names (a ++ b) = (tool_names a ++ tool_names b)%list.
Proof.
  induction a as [|[t|n|x y] a IH]; simpl; auto. now rewrite IH.
Qed.

Lemma assistant_blocks_spec (bs : list block) (text : string) (w : world) :
  exists w',
    Builder.assistant_blocks bs text w
    = (w', Ok (text ++ aggregated_text (flat_map assistant_event bs)))
    /\ quiet w w'.
Proof.
  revert text w. induction bs as [|b bs IH]; intros text w.
  - exists w. simpl. rewrite string_app_nil_r. split; [reflexivity | apply quiet_refl].
  - destruct b as [[t|]|name|err content|]; cbn [Builder.assistant_blocks].
    + destruct (print_end_quiet t "" w) as (w1 & E1 & Q1).
      rewrite (bind_ok _ _ _ _ _ E1).
      destruct (IH (text ++ t) w1) as (w2 & E2 & Q2).
      exists w2. split; [|eapply quiet_trans; eauto].
      rewrite E2. simpl. now rewrite string_app_assoc.
    + destruct (IH text w) as (w2 & E2 & Q2). exists w2. now split.
    + match goal with |- context [print ?s] =>
        destruct (print_quiet s w) as (w1 & E1 & Q1) end.
      rewrite (bind_ok _ _ _ _ _ E1).
      destruct (IH text w1) as (w2 & E2 & Q2).
      exists w2. split; [|eapply quiet_trans; eauto].
      rewrite E2. now destruct name.
    + destruct (IH text w) as (w2 & E2 & Q2). exists w2. now split.
    + destruct (IH text w) as (w2 & E2 & Q2). exists w2. now split.
Qed.

Lemma user_blocks_spec (bs : list block) (w : world) :
  exists w', Builder.user_blocks bs w = (w', Ok tt) /\ quiet w w'.
Proof.
  revert w. induction bs as [|b bs IH]; intros w.
  - exists w. split; [reflexivity | apply quiet_refl].
  - destruct b as [t|name|err content|]; cbn [Builder.user_blocks]; auto.
    assert (exists w1,
               (if err then print ("   [Error] " ++ take 300 content)
                else print "   [Done]") w = (w1, Ok tt) /\ quiet w w1)
      as (w1 & E1 & Q1) by (destruct err; apply print_quiet).
    rewrite (bind_ok _ _ _ _ _ E1).
    destruct (IH w1) as (w2 & E2 & Q2).
    exists w2. split; [exact E2 | eapply quiet_trans; eauto].
Qed.

Lemma user_events_silent (bs : list block) :
  aggregated_text (flat_map user_event bs) = "".
Proof. induction bs as [|[t|n|x y|] bs IH]; simpl; auto. Qed.

Lemma receive_loop_spec (r : response) (text : string) (w : world) :
  exists w',
    Builder.receive_loop r text w
    = (w', match stream_raise r with
           | Some e => Raise e
           | None =>
               Ok (text ++ aggregated_text (events_of (stream_messages r)))
           end)
    /\ quiet w w'.
Proof.
  revert text w. induction r as [|m rest IH|e]; intros text w.
  - exists w. simpl. rewrite string_app_nil_r.
    split; [reflexivity | apply quiet_refl].
  - cbn [Builder.receive_loop stream_raise stream_messages].
    unfold events_of. cbn [flat_map]. fold (events_of (stream_messages rest)).
    rewrite aggregated_text_app.
    destruct m as [[bs|]|[bs|]|].
    + destruct (assistant_blocks_spec bs text w) as (w1 & E1 & Q1).
      rewrite (bind_ok _ _ _ _ _ E1).
      destruct (IH (text ++ aggregated_text (flat_map assistant_event bs)) w1)
        as (w2 & E2 & Q2).
      exists w2. split; [|eapply quiet_trans; eauto].
      rewrite E2. cbn [events_of_message].
      destruct (stream_raise rest); [reflexivity|].
      now rewrite string_app_assoc.
    + destruct (IH text w) as (w2 & E2 & Q2). exists w2. split; [|exact Q2].
      unfold bind at 1, ret at 1. rewrite E2. reflexivity.
    + destruct (user_blocks_spec bs w) as (w1 & E1 & Q1).
      unfold bind at 1. unfold bind at 1. rewrite E1. unfold ret at 1.
      destruct (IH text w1) as (w2 & E2 & Q2).
      exists w2. split; [|eapply quiet_trans; eauto].
      rewrite E2. cbn [events_of_message].
      now rewrite user_events_silent.
    + destruct (IH text w) as (w2 & E2 & Q2). exists w2. split; [|exact Q2].
      unfold bind at 1, ret at 1. rewrite E2. reflexivity.
    + destruct (IH text w) as (w2 & E2 & Q2). exists w2. split; [|exact Q2].
      unfold bind at 1, ret at 1. rewrite E2. reflexivity.
  - exists w. split; [reflexivity | apply quiet_refl].
Qed.

Lemma session_spec (c : client) (prompt : string) (w : world) :
  exists w',
    try_except
      (async_with c
         (raising (query c prompt) ;;
          response_text <-
            Builder.receive_loop (receive_response c prompt) "" ;;
          print (lf ++ rule "-" ++ lf) ;;
          ret ("success", response_text)))
      (fun e =>
         print (lf ++ "Error in agent iteration: " ++ exn_str e) ;;
         ret ("error", exn_str e)) w
    = (w', outcome_for c prompt)
    /\ quiet w w'.
Proof.
  assert (Hcatch : forall (e : exn) (w1 : world), quiet w w1 ->
            exists w',
              (if is_Exception e
               then (print (lf ++ "Error in agent iteration: " ++ exn_str e) ;;
                     ret ("error", exn_str e)) w1
               else (w1, Raise e))
              = (w', if is_Exception e then Ok ("error", exn_str e)
                     else Raise e)
              /\ quiet w w').
  { intros e w1 Q. destruct (is_Exception e).
    - match goal with |- context [print ?s] =>
        destruct (print_quiet s w1) as (w2 & E2 & Q2) end.
      exists w2. rewrite (bind_ok _ _ _ _ _ E2).
      split; [reflexivity | eapply quiet_trans; eauto].
    - exists w1. now split. }
  unfold try_except, async_with, outcome_for, with_block_raise.
  destruct (aenter c) as [e|].
  { apply Hcatch, quiet_refl. }
  destruct (query c prompt) as [e|]; cbn [raising].
  { rewrite (bind_raise _ _ w w e) by reflexivity.
    destruct (aexit c) as [e'|]; apply Hcatch, quiet_refl. }
  rewrite (bind_ok _ _ w w tt) by reflexivity.
  destruct (receive_loop_spec (receive_response c prompt) "" w)
    as (w1 & E1 & Q1).
  destruct (stream_raise (receive_response c prompt)) as [e|].
  { rewrite (bind_raise _ _ _ _ _ E1).
    destruct (aexit c) as [e'|]; now apply Hcatch. }
  rewrite (bind_ok _ _ _ _ _ E1).
  match goal with |- context [print ?s] =>
    destruct (print_quiet s w1) as (w2 & E2 & Q2) end.
  rewrite (bind_ok _ _ _ _ _ E2). unfold ret.
  destruct (aexit c) as [e'|].
  { apply Hcatch. eapply quiet_trans; eauto. }
  exists w2. split; [reflexivity | eapply quiet_trans; eauto].
Qed.

(** One statement whose effect on the world is known by computation. *)
Ltac step :=
  erewrite bind_ok by reflexivity;
  cbn [stdout files slept created clock_reads calls].

(** What one call of the runner does, for the client that [create_client]
    returns to it. *)
Lemma run_agent_iteration_spec (E : env) (agent_type model : string)
    (iteration : Z) (w : world) (c : client) :
  rt E (S (created w)) (str_of_path ECHO_MVP_DIR) model = Ok c ->
  exists prompt w',
    get_agent_prompt agent_type iteration = Ok prompt
    /\ run_agent_iteration E agent_type iteration model w
       = (w', outcome_for c prompt)
    /\ files w' = files w /\ slept w' = slept w
    /\ created w' = S (created w) /\ clock_reads w' = clock_reads w
    /\ calls w' = (calls w ++ [iteration])%list.
Proof.
  intros Hrt. unfold run_agent_iteration.
  rewrite get_agent_prompt_sections.
  match goal with |- context [lift (Ok ?p)] => set (prompt := p) end.
  exists prompt.
  do 4 step.
  erewrite bind_ok
    by (unfold Builder.create_client; cbn [created]; rewrite Hrt; reflexivity).
  step.
  match goal with |- context [try_except _ _ ?w0] =>
    destruct (session_spec c prompt w0) as (w' & E' & Q') end.
  exists w'. split; [reflexivity|]. split; [exact E'|].
  destruct Q' as (q1 & q2 & q3 & q4 & q5).
  rewrite q1, q2, q3, q4, q5. repeat split.
Qed.

(** ** The session log *)

Lemma lookup_insert_same {V} (d : PyDict.dict V) (k : string) (v : V) :
  PyDict.lookup (PyDict.insert d k v) k = Some v.
Proof.
  induction d as [|[k' v'] d IH]; simpl.
  - now rewrite String.eqb_refl.
  - destruct (String.eqb k' k) eqn:E; simpl; rewrite E; auto.
Qed.

Lemma lookup_insert_other {V} (d : PyDict.dict V) (k p : string) (v : V) :
  p <> k -> PyDict.lookup (PyDict.insert d k v) p = PyDict.lookup d p.
Proof.
  intros Hp. induction d as [|[k' v'] d IH]; simpl.
  - destruct (String.eqb_spec k p); [congruence | reflexivity].
  - destruct (String.eqb_spec k' k) as [->|Hk]; simpl.
    + destruct (String.eqb_spec k p); [congruence | reflexivity].
    + destruct (String.eqb k' p); auto.
Qed.

Lemma get_insert_same {V} (d : PyDict.dict V) (k : string) (v dflt : V) :
  PyDict.get (PyDict.insert d k v) k dflt = v.
Proof. unfold PyDict.get. now rewrite lookup_insert_same. Qed.

Lemma log_entry_spec (E : env) (log : path) (iteration : Z) (response : string)
    (w : world) :
  exists w',
    log_entry E log iteration response w = (w', Ok tt)
    /\ PyDict.get (files w') log ""
       = PyDict.get (files w) log ""
         ++ entry_text iteration (now E (clock_reads w)) response
    /\ (forall p, p <> log ->
          PyDict.lookup (files w') p = PyDict.lookup (files w) p)
    /\ stdout w' = stdout w /\ slept w' = slept w /\ created w' = created w
    /\ clock_reads w' = S (clock_reads w) /\ calls w' = calls w.
Proof.
  unfold log_entry. do 4 step.
  eexists. split; [reflexivity|].
  cbn [fst files stdout slept created clock_reads calls].
  split; [|split; [|repeat split]].
  - rewrite !get_insert_same. unfold entry_text.
    now rewrite !string_app_assoc.
  - intros p Hp. now rewrite !lookup_insert_other.
Qed.

(** ** The loop *)

Lemma max_reached_spec (max_iterations : option Z) (iteration : Z) :
  max_reached max_iterations iteration = true
  <-> exists n, max_iterations = Some n /\ n <> 0 /\ n < iteration.
Proof.
  destruct max_iterations as [n|]; simpl.
  - rewrite andb_true_iff, negb_true_iff, Z.eqb_neq, Z.ltb_lt. split.
    + intros [H1 H2]. now exists n.
    + intros (m & Hm & H1 & H2). inversion Hm; subst. now split.
  - split; [discriminate | intros (n & Hn & _); discriminate].
Qed.

(** One pass that is not cut by the maximum, once the runner has returned:
    whatever the status, the response is appended to the log, the fixed
    delay is slept, and the loop goes on. *)
Lemma loop_body_spec (E : env) (agent_type model : string)
    (max_iterations : option Z) (log : path) (iteration : Z)
    (w w1 : world) (status response : string) :
  max_reached max_iterations iteration = false ->
  run_agent_iteration E agent_type iteration model w
  = (w1, Ok (status, response)) ->
  exists w',
    loop_body E agent_type max_iterations model log iteration w
    = (w', Ok true)
    /\ PyDict.get (files w') log ""
       = PyDict.get (files w1) log ""
         ++ entry_text iteration (now E (clock_reads w1)) response
    /\ (forall p, p <> log ->
          PyDict.lookup (files w') p = PyDict.lookup (files w1) p)
    /\ slept w' = (slept w1 ++ delays max_iterations iteration)%list
    /\ created w' = created w1
    /\ clock_reads w' = S (clock_reads w1)
    /\ calls w' = calls w1.
Proof.
  intros Hmax Hrun. unfold loop_body. rewrite Hmax.
  rewrite (bind_ok _ _ _ _ _ Hrun). cbv beta iota.
  destruct (log_entry_spec E log iteration response w1)
    as (w2 & E2 & F1 & F2 & _ & F3 & F4 & F5 & F6).
  rewrite (bind_ok _ _ _ _ _ E2).
  rewrite <- F1, <- F3, <- F4, <- F5, <- F6.
  assert (F2' : forall w', files w' = files w2 ->
             forall p, p <> log ->
               PyDict.lookup (files w') p = PyDict.lookup (files w1) p)
    by (intros w' -> p Hp; now apply F2).
  unfold delays.
  destruct (String.eqb status "success"), (more_to_come max_iterations iteration);
    (eexists; split; [reflexivity|]);
    cbn [fst files stdout slept created clock_reads calls];
    (repeat split; auto; try (apply F2'; reflexivity));
    now rewrite <- app_assoc.
Qed.

Lemma outcome_for_returns (c : client) (prompt : string) :
  (forall e, with_block_raise c prompt = Some e -> is_Exception e = true) ->
  exists status text,
    outcome_for c prompt = Ok (status, text)
    /\ (status = "success" \/ status = "error").
Proof.
  intros H. unfold outcome_for.
  destruct (with_block_raise c prompt) as [e|].
  - rewrite (H e eq_refl). eauto.
  - eauto.
Qed.

(** With a dependable environment a pass that is not cut by the maximum
    runs to its end. *)
Lemma loop_body_pass (E : env) (agent_type model : string)
    (max_iterations : option Z) (log : path) (iteration : Z) (w : world) :
  dependable E ->
  max_reached max_iterations iteration = false ->
  exists w',
    loop_body E agent_type max_iterations model log iteration w
    = (w', Ok true)
    /\ PyDict.get (files w') log ""
       = PyDict.get (files w) log ""
         ++ entry_text iteration (now E (clock_reads w))
              (response_of
                 (iteration_outcome E agent_type model (S (created w))
                    iteration))
    /\ (forall p, p <> log ->
          PyDict.lookup (files w') p = PyDict.lookup (files w) p)
    /\ slept w' = (slept w ++ delays max_iterations iteration)%list
    /\ created w' = S (created w)
    /\ clock_reads w' = S (clock_reads w)
    /\ calls w' = (calls w ++ [iteration])%list.
Proof.
  intros HE Hmax.
  destruct (HE (S (created w)) (str_of_path ECHO_MVP_DIR) model)
    as (c & Hc & Hcatch).
  destruct (run_agent_iteration_spec E agent_type model iteration w c Hc)
    as (prompt & w1 & Hp & Hrun & G1 & G2 & G3 & G4 & G5).
  destruct (outcome_for_returns c prompt (Hcatch prompt))
    as (status & text & Hout & _).
  rewrite Hout in Hrun.
  destruct (loop_body_spec E agent_type model max_iterations log iteration
              w w1 status text Hmax Hrun)
    as (w' & Hbody & F1 & F2 & F3 & F4 & F5 & F6).
  exists w'. split; [exact Hbody|].
  unfold iteration_outcome. rewrite Hc, Hp, Hout. cbn [response_of].
  rewrite F1, F3, F4, F5, F6, G1, G2, G3, G4, G5.
  repeat split; auto. intros p Hp'. rewrite (F2 p Hp'). now rewrite G1.
Qed.

(** A pass whose runner raises ends by raising the same exception: nothing
    is logged and no delay is slept. *)
Lemma loop_body_raises (E : env) (agent_type model : string)
    (max_iterations : option Z) (log : path) (iteration : Z) (w : world)
    (e : exn) :
  max_reached max_iterations iteration = false ->
  snd (run_agent_iteration E agent_type iteration model w) = Raise e ->
  loop_body E agent_type max_iterations model log iteration w
  = (fst (run_agent_iteration E agent_type iteration model w), Raise e).
Proof.
  intros Hmax Hrun. unfold loop_body. rewrite Hmax.
  destruct (run_agent_iteration E agent_type iteration model w) as [w1 r] eqn:Hr.
  cbn [fst snd] in *. subst r. now rewrite (bind_raise _ _ _ _ _ Hr).
Qed.

Lemma concat_snoc (l : list string) (x : string) :
  concat (l ++ [x]) = concat l ++ x.
Proof.
  unfold concat. induction l as [|y l IH]; simpl.
  - apply string_app_nil_r.
  - now rewrite IH, string_app_assoc.
Qed.

Lemma iterations_snoc (j : nat) :
  iterations (S j) = (iterations j ++ [Z.of_nat j + 1])%list.
Proof.
  unfold iterations. rewrite seq_S, map_app. simpl.
  now rewrite Zpos_P_of_succ_nat, <- Z.add_1_r.
Qed.

Lemma while_true_step (fuel : nat) (body : Z -> M world bool) (i : Z)
    (w w' : world) :
  body (i + 1) w = (w', Ok true) ->
  while_true (S fuel) body i w = while_true fuel body (i + 1) w'.
Proof.
  intros H. cbn [while_true]. now rewrite (bind_ok _ _ _ _ _ H).
Qed.

Lemma while_true_break (fuel : nat) (body : Z -> M world bool) (i : Z)
    (w w' : world) :
  body (i + 1) w = (w', Ok false) ->
  while_true (S fuel) body i w = (w', Ok (Some (i + 1))).
Proof.
  intros H. cbn [while_true]. now rewrite (bind_ok _ _ _ _ _ H).
Qed.

(** [j] passes, none of them cut by the maximum, from the counter at 0. *)
Lemma while_true_passes (E : env) (agent_type model : string)
    (max_iterations : option Z) (log : path) :
  dependable E ->
  forall (j : nat) (w : world),
    (forall k, (1 <= k <= j)%nat ->
       max_reached max_iterations (Z.of_nat k) = false) ->
    exists w',
      (forall fuel,
         while_true (j + fuel)
           (loop_body E agent_type max_iterations model log) 0 w
         = while_true fuel
             (loop_body E agent_type max_iterations model log)
             (Z.of_nat j) w')
      /\ PyDict.get (files w') log ""
         = PyDict.get (files w) log ""
           ++ concat
                (map (logged E agent_type model (created w) (clock_reads w))
                   (seq 1 j))
      /\ (forall p, p <> log ->
            PyDict.lookup (files w') p = PyDict.lookup (files w) p)
      /\ slept w'
         = (slept w ++ flat_map (delays max_iterations) (iterations j))%list
      /\ created w' = (created w + j)%nat
      /\ clock_reads w' = (clock_reads w + j)%nat
      /\ calls w' = (calls w ++ iterations j)%list.
Proof.
  intros HE. induction j as [|j IH]; intros w Hmax.
  - exists w. cbn [seq map concat fold_right iterations flat_map].
    rewrite string_app_nil_r, !app_nil_r, !Nat.add_0_r.
    repeat split; reflexivity.
  - destruct (IH w) as (wj & Hrun & F1 & F2 & F3 & F4 & F5 & F6).
    { intros k Hk. apply Hmax. lia. }
    assert (Hnot : max_reached max_iterations (Z.of_nat j + 1) = false).
    { replace (Z.of_nat j + 1) with (Z.of_nat (S j)) by lia.
      apply Hmax. lia. }
    destruct (loop_body_pass E agent_type model max_iterations log
                (Z.of_nat j + 1) wj HE Hnot)
      as (w' & Hbody & G1 & G2 & G3 & G4 & G5 & G6).
    exists w'. split; [|split; [|split; [|split; [|split; [|split]]]]].
    + intros fuel.
      replace (S j + fuel)%nat with (j + S fuel)%nat by lia.
      rewrite Hrun, (while_true_step _ _ _ _ _ Hbody).
      now replace (Z.of_nat (S j)) with (Z.of_nat j + 1) by lia.
    + rewrite G1, F1, seq_S, map_app, string_app_assoc.
      cbn [map]. rewrite concat_snoc. unfold logged at 3.
      rewrite F4, F5.
      replace (Z.of_nat (1 + j)) with (Z.of_nat j + 1) by lia.
      replace (clock_reads w + (1 + j) - 1)%nat with (clock_reads w + j)%nat
        by lia.
      replace (created w + (1 + j))%nat with (S (created w + j)) by lia.
      reflexivity.
    + intros p Hp. now rewrite (G2 p Hp), (F2 p Hp).
    + rewrite G3, F3, iterations_snoc, flat_map_app, <- app_assoc.
      cbn [flat_map]. now rewrite app_nil_r.
    + rewrite G4, F4. lia.
    + rewrite G5, F5. lia.
    + rewrite G6, F6, iterations_snoc. now rewrite <- app_assoc.
Qed.

Lemma loop_body_cut (E : env) (agent_type model : string)
    (max_iterations : option Z) (log : path) (iteration : Z) (w : world) :
  max_reached max_iterations iteration = true ->
  exists w',
    loop_body E agent_type max_iterations model log iteration w
    = (w', Ok false)
    /\ quiet w w'.
Proof.
  intros H. unfold loop_body. rewrite H.
  match goal with |- context [print ?s] =>
    destruct (print_quiet s w) as (w1 & E1 & Q1) end.
  rewrite (bind_ok _ _ _ _ _ E1). now exists w1.
Qed.

Ltac enter_run :=
  unfold run_continuous_build;
  do 9 step;
  cbv beta zeta.

(** A run whose first [fuel] passes are not cut by the maximum is still in
    its loop after them. *)
Lemma run_still_running (fuel : nat) (E : env) (agent_type model : string)
    (max_iterations : option Z) (w : world) :
  dependable E ->
  (forall k, (1 <= k <= fuel)%nat ->
     max_reached max_iterations (Z.of_nat k) = false) ->
  exists w',
    run_continuous_build fuel E agent_type max_iterations model w
    = (w', Ok None)
    /\ after_passes E agent_type model max_iterations fuel w w'.
Proof.
  intros HE Hmax. enter_run.
  match goal with |- context [bind (while_true fuel ?b 0) _ ?w0] =>
    destruct (while_true_passes E agent_type model max_iterations
                (session_log_path agent_type (now E (clock_reads w)))
                HE fuel w0 Hmax)
      as (w' & Hrun & F1 & F2 & F3 & F4 & _ & F6)
  end.
  specialize (Hrun 0%nat). rewrite Nat.add_0_r in Hrun.
  cbn [stdout files slept created clock_reads calls] in F1, F2, F3, F4, F6.
  exists w'. split.
  - rewrite (bind_ok _ _ _ w' None) by (rewrite Hrun; reflexivity).
    reflexivity.
  - repeat split; assumption.
Qed.

(** A run in which pass [j + 1] is the first one cut by the maximum ends
    there, after [j] full passes. *)
Lemma run_ends (fuel j : nat) (E : env) (agent_type model : string)
    (max_iterations : option Z) (w : world) :
  dependable E ->
  (j < fuel)%nat ->
  (forall k, (1 <= k <= j)%nat ->
     max_reached max_iterations (Z.of_nat k) = false) ->
  max_reached max_iterations (Z.of_nat j + 1) = true ->
  exists w',
    run_continuous_build fuel E agent_type max_iterations model w
    = (w', Ok (Some (Z.of_nat j + 1)))
    /\ after_passes E agent_type model max_iterations j w w'.
Proof.
  intros HE Hfuel Hmax Hcut. enter_run.
  match goal with |- context [bind (while_true fuel ?b 0) _ ?w0] =>
    destruct (while_true_passes E agent_type model max_iterations
                (session_log_path agent_type (now E (clock_reads w)))
                HE j w0 Hmax)
      as (w1 & Hrun & F1 & F2 & F3 & F4 & _ & F6)
  end.
  destruct (loop_body_cut E agent_type model max_iterations
              (session_log_path agent_type (now E (clock_reads w)))
              (Z.of_nat j + 1) w1 Hcut)
    as (w2 & Hbody & Q2).
  cbn [stdout files slept created clock_reads calls] in F1, F2, F3, F4, F6.
  replace fuel with (j + S (fuel - S j))%nat by lia.
  rewrite (bind_ok _ _ _ w2 (Some (Z.of_nat j + 1)))
    by (rewrite Hrun; apply (while_true_break _ _ _ _ _ Hbody)).
  do 6 step.
  eexists. split; [reflexivity|].
  destruct Q2 as (q1 & q2 & q3 & _ & q5).
  unfold after_passes.
  cbn [fst files stdout slept created clock_reads calls].
  rewrite q1, q2, q3, q5. repeat split; assumption.
Qed.

(** ** The single-shot wrapper *)

Lemma events_of_embedding (evs : list ResponseEvent) :
  events_of (map message_of_event evs) = evs.
Proof.
  unfold events_of. induction evs as [|[t|n|x y] evs IH]; simpl; congruence.
Qed.

Lemma records_of_app (a b : list ResponseEvent) :
  Wrapper.records_of (a ++ b)
  = (Wrapper.records_of a ++ Wrapper.records_of b)%list.
Proof. unfold Wrapper.records_of. now rewrite filter_app, map_app. Qed.

Lemma wrapper_assistant_blocks_spec (bs : list block)
    (acc : string * list string) (w : Wrapper.world) :
  Wrapper.assistant_blocks bs acc w
  = (Wrapper.mkWorld
       (Wrapper.stdout w
        ++ Wrapper.records_of (flat_map assistant_event bs))%list
       (Wrapper.created w),
     Ok (fst acc ++ aggregated_text (flat_map assistant_event bs),
         (snd acc ++ tool_names (flat_map assistant_event bs))%list)).
Proof.
  revert acc w. induction bs as [|b bs IH]; intros [text tools] [out n].
  - simpl. now rewrite string_app_nil_r, !app_nil_r.
  - destruct b as [[t|]|name|err content|];
      cbn [Wrapper.assistant_blocks flat_map assistant_event];
      try (rewrite IH; reflexivity).
    + unfold bind at 1, Wrapper.print_json at 1.
      cbn [Wrapper.stdout Wrapper.created]. rewrite IH.
      cbn [fst snd Wrapper.stdout Wrapper.created].
      rewrite records_of_app, aggregated_text_app, tool_names_app.
      simpl. now rewrite string_app_nil_r, <- app_assoc, string_app_assoc.
    + unfold bind at 1, Wrapper.print_json at 1.
      cbn [Wrapper.stdout Wrapper.created]. rewrite IH.
      cbn [fst snd Wrapper.stdout Wrapper.created].
      rewrite records_of_app, aggregated_text_app, tool_names_app.
      destruct name as [name|]; simpl; now rewrite <- !app_assoc.
Qed.

Lemma wrapper_user_blocks_spec (bs : list block) (w : Wrapper.world) :
  Wrapper.user_blocks bs w
  = (Wrapper.mkWorld
       (Wrapper.stdout w ++ Wrapper.records_of (flat_map user_event bs))%list
       (Wrapper.created w),
     Ok tt).
Proof.
  revert w. induction bs as [|b bs IH]; intros [out n].
  - simpl. now rewrite app_nil_r.
  - destruct b as [t|name|err content|];
      cbn [Wrapper.user_blocks flat_map user_event];
      try (rewrite IH; reflexivity).
    destruct err; unfold bind at 1; cbn; rewrite IH;
      cbn [Wrapper.stdout Wrapper.created].
    + now rewrite <- app_assoc.
    + reflexivity.
Qed.

Lemma tool_names_user (bs : list block) :
  tool_names (flat_map user_event bs) = [].
Proof. induction bs as [|[t|n|x y|] bs IH]; simpl; auto. Qed.

Lemma wrapper_receive_loop_spec (r : response) (acc : string * list string)
    (w : Wrapper.world) :
  Wrapper.receive_loop r acc w
  = (Wrapper.mkWorld
       (Wrapper.stdout w
        ++ Wrapper.records_of (events_of (stream_messages r)))%list
       (Wrapper.created w),
     match stream_raise r with
     | Some e => Raise e
     | None =>
         Ok (fst acc ++ aggregated_text (events_of (stream_messages r)),
             (snd acc ++ tool_names (events_of (stream_messages r)))%list)
     end).
Proof.
  revert acc w. induction r as [|m rest IH|e]; intros [text tools] [out n].
  - simpl. now rewrite string_app_nil_r, !app_nil_r.
  - cbn [Wrapper.receive_loop stream_raise stream_messages].
    unfold events_of. cbn [flat_map]. fold (events_of (stream_messages rest)).
    rewrite aggregated_text_app, tool_names_app, records_of_app.
    destruct m as [[bs|]|[bs|]|]; unfold bind at 1.
    + rewrite wrapper_assistant_blocks_spec, IH.
      cbn [fst snd Wrapper.stdout Wrapper.created events_of_message].
      rewrite <- !app_assoc, string_app_assoc. reflexivity.
    + unfold ret at 1. rewrite IH. reflexivity.
    + unfold bind at 1. rewrite wrapper_user_blocks_spec. unfold ret at 1.
      rewrite IH.
      cbn [fst snd Wrapper.stdout Wrapper.created events_of_message].
      rewrite user_events_silent, tool_names_user, <- app_assoc.
      reflexivity.
    + unfold ret at 1. rewrite IH. reflexivity.
    + unfold ret at 1. rewrite IH. reflexivity.
  - simpl. now rewrite app_nil_r.
Qed.

(** What [send_message] prints and how it ends, when every exception that
    reaches its [except] clause is an instance of [Exception]. *)
Lemma send_message_spec (rt : runtime) (message : string)
    (working_dir : option string) (w : Wrapper.world) :
  let dir := match working_dir with
             | None => Wrapper.LIFEOS_ROOT
             | Some d => d
             end in
  let r := rt (S (Wrapper.created w)) dir "claude-sonnet-4-5" in
  (forall e, Wrapper.failure r message = Some e -> is_Exception e = true) ->
  Wrapper.send_message rt message working_dir w
  = (Wrapper.mkWorld
       (Wrapper.stdout w
        ++ Wrapper.records_of (Wrapper.streamed r message)
        ++ [fst (Wrapper.ending r message)])%list
       (S (Wrapper.created w)),
     snd (Wrapper.ending r message)).
Proof.
  intros dir r Hexc. unfold Wrapper.send_message. fold dir.
  unfold try_except, bind at 1, Wrapper.create_client. fold r.
  unfold Wrapper.ending, Wrapper.streamed, Wrapper.failure in *.
  destruct r as [c|e].
  2:{ rewrite (Hexc e eq_refl). reflexivity. }
  unfold with_block_raise in *. unfold bind at 1, async_with.
  destruct (aenter c) as [e|].
  { rewrite (Hexc e eq_refl). reflexivity. }
  unfold bind at 1. destruct (query c message) as [e|]; cbn [raising].
  { unfold raise at 1.
    destruct (aexit c) as [e'|];
      [rewrite (Hexc e' eq_refl) | rewrite (Hexc e eq_refl)]; reflexivity. }
  unfold ret at 1. rewrite wrapper_receive_loop_spec.
  cbn [Wrapper.stdout Wrapper.created fst snd].
  destruct (aexit c) as [e'|].
  { rewrite (Hexc e' eq_refl).
    destruct (stream_raise (receive_response c message)); cbn;
      now rewrite <- app_assoc. }
  destruct (stream_raise (receive_response c message)) as [e|].
  { rewrite (Hexc e eq_refl). cbn. now rewrite <- app_assoc. }
  cbn. now rewrite <- app_assoc.
Qed.

(** What [send_message] prints and how it ends, whatever is raised. *)
Lemma send_message_closing (rt : runtime) (message : string)
    (working_dir : option string) (w : Wrapper.world) :
  let dir := match working_dir with
             | None => Wrapper.LIFEOS_ROOT
             | Some d => d
             end in
  let r := rt (S (Wrapper.created w)) dir "claude-sonnet-4-5" in
  Wrapper.send_message rt message working_dir w
  = (Wrapper.mkWorld
       (Wrapper.stdout w
        ++ Wrapper.records_of (Wrapper.streamed r message)
        ++ fst (Wrapper.closing r message))%list
       (S (Wrapper.created w)),
     snd (Wrapper.closing r message)).
Proof.
  intros dir r.
  destruct (Wrapper.failure r message) as [e|] eqn:Hfail.
  2:{ rewrite (send_message_spec rt message working_dir w)
        by (fold dir r; intros e He; rewrite Hfail in He; discriminate).
      fold dir r. unfold Wrapper.ending, Wrapper.closing.
      rewrite Hfail. reflexivity. }
  destruct (is_Exception e) eqn:Hcls.
  { rewrite (send_message_spec rt message working_dir w)
      by (fold dir r; intros e' He'; rewrite Hfail in He'; inversion He';
          subst; exact Hcls).
    fold dir r. unfold Wrapper.ending, Wrapper.closing.
    rewrite Hfail, Hcls. reflexivity. }
  unfold Wrapper.closing. rewrite Hfail, Hcls. cbn [fst snd].
  rewrite app_nil_r.
  unfold Wrapper.send_message. fold dir.
  unfold try_except, bind at 1, Wrapper.create_client. fold r.
  unfold Wrapper.streamed, Wrapper.failure in *.
  destruct r as [c|e0].
  2:{ inversion Hfail; subst e0. rewrite Hcls. now rewrite app_nil_r. }
  unfold with_block_raise in Hfail. unfold bind at 1, async_with.
  destruct (aenter c) as [e0|].
  { inversion Hfail; subst e0. rewrite Hcls. now rewrite app_nil_r. }
  unfold bind at 1. destruct (query c message) as [e0|]; cbn [raising].
  { unfold raise at 1.
    destruct (aexit c) as [e'|]; inversion Hfail; subst; rewrite Hcls;
      now rewrite app_nil_r. }
  unfold ret at 1. rewrite wrapper_receive_loop_spec.
  cbn [Wrapper.stdout Wrapper.created fst snd].
  destruct (aexit c) as [e'|].
  { inversion Hfail; subst e'.
    destruct (stream_raise (receive_response c message)); cbn;
      rewrite Hcls; reflexivity. }
  destruct (stream_raise (receive_response c message)) as [e0|];
    [|discriminate].
  inversion Hfail; subst e0. cbn. rewrite Hcls. reflexivity.
Qed.

(** ** The session runner catches what the session raises *)

Lemma prompt_text_ok (agent_type : string) (iteration : Z) :
  get_agent_prompt agent_type iteration
  = Ok (prompt_text agent_type iteration).
Proof.
  unfold prompt_text. now rewrite get_agent_prompt_sections.
Qed.

Lemma run_agent_iteration_outcome (E : env) (agent_type model : string)
    (iteration : Z) (w : world) (c : client) :
  rt E (S (created w)) (str_of_path ECHO_MVP_DIR) model = Ok c ->
  snd (run_agent_iteration E agent_type iteration model w)
  = outcome_for c (prompt_text agent_type iteration).
Proof.
  intros Hc.
  destruct (run_agent_iteration_spec E agent_type model iteration w c Hc)
    as (prompt & w1 & Hp & Hrun & _).
  rewrite prompt_text_ok in Hp. inversion Hp; subst prompt.
  now rewrite Hrun.
Qed.

(** The call of [create_client] stands before the [try]: what it raises
    leaves the runner. *)
Lemma create_client_failure_propagates (E : env) (agent_type model : string)
    (iteration : Z) (w : world) (e : exn) :
  rt E (S (created w)) (str_of_path ECHO_MVP_DIR) model = Raise e ->
  snd (run_agent_iteration E agent_type iteration model w) = Raise e.
Proof.
  intros Hc. unfold run_agent_iteration. do 4 step.
  erewrite bind_raise; [reflexivity|].
  unfold Builder.create_client. cbn [created]. rewrite Hc. reflexivity.
Qed.

(** What is not an instance of [Exception] passes through the [except]
    clause of the runner. *)
Lemma interrupt_passes_through (E : env) (agent_type model : string)
    (iteration : Z) (w : world) (c : client) (e : exn) :
  rt E (S (created w)) (str_of_path ECHO_MVP_DIR) model = Ok c ->
  with_block_raise c (prompt_text agent_type iteration) = Some e ->
  is_Exception e = false ->
  snd (run_agent_iteration E agent_type iteration model w) = Raise e.
Proof.
  intros Hc He Hcls.
  rewrite (run_agent_iteration_outcome _ _ _ _ _ _ Hc).
  unfold outcome_for. now rewrite He, Hcls.
Qed.

(** What a step of the session raises leaves the [async with] block as
    [surfacing] tells. *)
Lemma raises_in_surfaces (c : client) (prompt : string) (ph : phase)
    (e : exn) :
  raises_in c prompt ph e ->
  with_block_raise c prompt = Some (surfacing c ph e).
Proof.
  unfold with_block_raise, surfacing. destruct ph; simpl.
  - intros ->. reflexivity.
  - intros [-> Hq]. destruct (aexit c); [reflexivity | now rewrite Hq].
  - intros (-> & Hq & Hs).
    destruct (aexit c); [reflexivity | now rewrite Hq, Hs].
Qed.

(** C1, amended.  In a pass that the maximum does not cut:
    once [create_client] has returned the client, when the session raises
    [e] while it is entered ([__aenter__]), while the prompt is submitted
    ([query]) or while the response is iterated, the exception that leaves
    the session is [e], or what releasing the session ([__aexit__]) raises
    over it when [e] came after the session was entered.  If that
    exception is an instance of [Exception], the runner returns the pair of
    ["error"] and [str] of it, and the pass of the loop runs to its end and
    the loop goes on; if it is not, it leaves the runner and the pass of the
    loop.  What [create_client] itself raises, before the [try], leaves the
    runner and the pass of the loop whatever its class. *)
Theorem runner_catches_session_exceptions (E : env)
    (agent_type model : string) (iteration : Z) (w : world)
    (max_iterations : option Z) (log : path) :
  max_reached max_iterations iteration = false ->
  (forall (c : client) (ph : phase) (e : exn),
      rt E (S (created w)) (str_of_path ECHO_MVP_DIR) model = Ok c ->
      raises_in c (prompt_text agent_type iteration) ph e ->
      if is_Exception (surfacing c ph e)
      then
        snd (run_agent_iteration E agent_type iteration model w)
        = Ok ("error", exn_str (surfacing c ph e))
        /\ snd (loop_body E agent_type max_iterations model log iteration w)
           = Ok true
      else
        snd (run_agent_iteration E agent_type iteration model w)
        = Raise (surfacing c ph e)
        /\ snd (loop_body E agent_type max_iterations model log iteration w)
           = Raise (surfacing c ph e))
  /\ (forall e : exn,
        rt E (S (created w)) (str_of_path ECHO_MVP_DIR) model = Raise e ->
        snd (run_agent_iteration E agent_type iteration model w) = Raise e
        /\ snd (loop_body E agent_type max_iterations model log iteration w)
           = Raise e).
Proof.
  intros Hmax. split.
  - intros c ph e Hc Hraise.
    pose proof (raises_in_surfaces _ _ _ _ Hraise) as Hwith.
    destruct (run_agent_iteration_spec E agent_type model iteration w c Hc)
      as (prompt & w1 & Hp & Hrun & _).
    rewrite prompt_text_ok in Hp. inversion Hp; subst prompt.
    unfold outcome_for in Hrun. rewrite Hwith in Hrun.
    destruct (is_Exception (surfacing c ph e)).
    + split; [now rewrite Hrun|].
      destruct (loop_body_spec E agent_type model max_iterations log
                  iteration w w1 "error" (exn_str (surfacing c ph e))
                  Hmax Hrun) as (w' & Hbody & _).
      now rewrite Hbody.
    + assert (Hsnd : snd (run_agent_iteration E agent_type iteration model w)
                     = Raise (surfacing c ph e)) by now rewrite Hrun.
      split; [exact Hsnd|].
      now rewrite (loop_body_raises E agent_type model max_iterations log
                     iteration w _ Hmax Hsnd).
  - intros e Hc.
    pose proof (create_client_failure_propagates E agent_type model
                  iteration w e Hc) as Hsnd.
    split; [exact Hsnd|].
    now rewrite (loop_body_raises E agent_type model max_iterations log
                   iteration w _ Hmax Hsnd).
Qed.

Lemma runner_catches_session_exceptions_witness :
  (snd (run_agent_iteration
          (handing (refusing (Exception_ "connection lost")))
          "email" 1 "claude-sonnet-4-5" world0)
   = Ok ("error", "connection lost")
   /\ snd (loop_body (handing (refusing (Exception_ "connection lost")))
             "email" (Some 3) "claude-sonnet-4-5" "session.txt" 1 world0)
      = Ok true)
  /\ (snd (run_agent_iteration
             (failing_after 0 (streaming []) (Exception_ "no key"))
             "email" 1 "claude-sonnet-4-5" world0)
      = Raise (Exception_ "no key")
      /\ snd (loop_body
                (failing_after 0 (streaming []) (Exception_ "no key"))
                "email" (Some 3) "claude-sonnet-4-5" "session.txt" 1 world0)
         = Raise (Exception_ "no key")).
Proof.
  split.
  - exact (proj1 (runner_catches_session_exceptions
                    (handing (refusing (Exception_ "connection lost")))
                    "email" "claude-sonnet-4-5" 1 world0 (Some 3)
                    "session.txt" eq_refl)
             (refusing (Exception_ "connection lost")) Submitting
             (Exception_ "connection lost") eq_refl (conj eq_refl eq_refl)).
  - exact (proj2 (runner_catches_session_exceptions
                    (failing_after 0 (streaming []) (Exception_ "no key"))
                    "email" "claude-sonnet-4-5" 1 world0 (Some 3)
                    "session.txt" eq_refl)
             (Exception_ "no key") eq_refl).
Defined.

(** An exception raised by [create_client] is not caught, and neither is a
    [KeyboardInterrupt] raised while the prompt is submitted: each leaves
    the runner at iteration 1 and ends a run that had three iterations to
    make. *)
Lemma uncaught_exceptions_end_the_run :
  snd (run_continuous_build 5
         (failing_after 0 (streaming []) (Exception_ "no key"))
         "email" (Some 3) "claude-sonnet-4-5" world0)
  = Raise (Exception_ "no key")
  /\ calls (fst (run_continuous_build 5
                   (failing_after 0 (streaming []) (Exception_ "no key"))
                   "email" (Some 3) "claude-sonnet-4-5" world0))
     = [1]
  /\ snd (run_continuous_build 5 (handing (refusing (Interrupt "stop")))
            "email" (Some 3) "claude-sonnet-4-5" world0)
     = Raise (Interrupt "stop")
  /\ calls (fst (run_continuous_build 5
                   (handing (refusing (Interrupt "stop")))
                   "email" (Some 3) "claude-sonnet-4-5" world0))
     = [1].
Proof. vm_compute. repeat split. Qed.

(** ** The iteration cap *)

Lemma serving_dependable (ms : list message) : dependable (serving ms).
Proof.
  intros k p model. exists (streaming ms). split; [reflexivity|].
  intros prompt e. unfold with_block_raise. simpl.
  induction ms as [|m ms IH]; simpl; [discriminate | exact IH].
Qed.

Lemma handing_refusing_dependable (msg : string) :
  dependable (handing (refusing (Exception_ msg))).
Proof.
  intros k p model. exists (refusing (Exception_ msg)).
  split; [reflexivity|].
  intros prompt e. unfold with_block_raise. simpl.
  intros H. inversion H. reflexivity.
Qed.

Lemma cap_not_reached (n : Z) (k : nat) :
  (1 <= k <= Z.to_nat n)%nat -> max_reached (Some n) (Z.of_nat k) = false.
Proof.
  intros Hk. simpl. apply andb_false_iff. right. apply Z.ltb_ge. lia.
Qed.

Lemma cap_reached (n : Z) :
  1 <= n -> max_reached (Some n) (Z.of_nat (Z.to_nat n) + 1) = true.
Proof.
  intros Hn. simpl. rewrite Z2Nat.id by lia.
  apply andb_true_iff. split.
  - apply negb_true_iff, Z.eqb_neq. lia.
  - apply Z.ltb_lt. lia.
Qed.

(** A run is over at its first pass when that pass is cut by the maximum;
    the runtime is not called. *)
Lemma run_ends_at_once (fuel : nat) (E : env) (agent_type model : string)
    (max_iterations : option Z) (w : world) :
  max_reached max_iterations 1 = true ->
  exists w',
    run_continuous_build (S fuel) E agent_type max_iterations model w
    = (w', Ok (Some 1))
    /\ files w' = files w /\ slept w' = slept w /\ created w' = created w
    /\ calls w' = calls w.
Proof.
  intros Hcut. enter_run.
  match goal with |- context [bind (while_true _ ?b 0) _ ?w0] =>
    destruct (loop_body_cut E agent_type model max_iterations
                (session_log_path agent_type (now E (clock_reads w)))
                (0 + 1) w0 Hcut)
      as (w2 & Hbody & Q2)
  end.
  rewrite (bind_ok _ _ _ w2 (Some (0 + 1)))
    by (apply (while_true_break _ _ _ _ _ Hbody)).
  cbv beta iota. do 6 step.
  eexists. split; [reflexivity|].
  destruct Q2 as (q1 & q2 & q3 & _ & q5).
  cbn [fst files stdout slept created clock_reads calls] in *.
  auto.
Qed.

(** C2, amended.  For a maximum [n] of at least 1, in an environment where
    every call of [create_client] returns a client and the sessions on these
    clients raise instances of [Exception] only, the run ends once its loop
    is given more than [n] passes: the runner has been called for the
    iterations [1 .. n], in that order, and for no other, [n] clients have
    been created, and the loop has left with its counter at [n + 1]. *)
Theorem max_iterations_runs_exactly_n (fuel : nat) (E : env)
    (agent_type model : string) (n : Z) (w : world) :
  dependable E -> 1 <= n -> (Z.to_nat n < fuel)%nat ->
  exists w',
    run_continuous_build fuel E agent_type (Some n) model w
    = (w', Ok (Some (n + 1)))
    /\ calls w' = (calls w ++ iterations (Z.to_nat n))%list
    /\ created w' = (created w + Z.to_nat n)%nat.
Proof.
  intros HE Hn Hfuel.
  destruct (run_ends fuel (Z.to_nat n) E agent_type model (Some n) w HE Hfuel
              (cap_not_reached n) (cap_reached n Hn))
    as (w' & Hrun & _ & _ & _ & Hcreated & Hcalls).
  exists w'. rewrite Z2Nat.id in Hrun by lia. repeat split; assumption.
Qed.

Lemma max_iterations_runs_exactly_n_witness :
  exists w',
    run_continuous_build 5 (serving []) "orchestrator" (Some 3)
      "claude-sonnet-4-5" world0
    = (w', Ok (Some (3 + 1)))
    /\ calls w' = (calls world0 ++ iterations (Z.to_nat 3))%list
    /\ created w' = (created world0 + Z.to_nat 3)%nat.
Proof.
  apply (max_iterations_runs_exactly_n 5 (serving []) "orchestrator"
           "claude-sonnet-4-5" 3 world0).
  - apply serving_dependable.
  - lia.
  - vm_compute. lia.
Defined.

(** With the maximum at 0 the run does not end: after three passes the
    iterations 1, 2 and 3 have run and the loop is still going. *)
Lemma max_zero_keeps_running :
  snd (run_continuous_build 3 (serving []) "orchestrator" (Some 0)
         "claude-sonnet-4-5" world0) = Ok None
  /\ calls (fst (run_continuous_build 3 (serving []) "orchestrator"
                   (Some 0) "claude-sonnet-4-5" world0)) = [1; 2; 3].
Proof. vm_compute. split; reflexivity. Qed.

(** C9.  The guard of the loop holds exactly when the maximum is an integer
    other than 0 that the counter exceeds.  So with the maximum at 0 the
    run is still in its loop after any number of passes, each of which
    ran its iteration; and with a negative maximum the run ends at its
    first pass, no iteration run and no client created. *)
Theorem iteration_cap_guard (fuel : nat) (E : env)
    (agent_type model : string) (max_iterations : option Z)
    (iteration n : Z) (w : world) :
  (max_reached max_iterations iteration = true
   <-> exists m, max_iterations = Some m /\ m <> 0 /\ m < iteration)
  /\ (dependable E ->
      exists w',
        run_continuous_build fuel E agent_type (Some 0) model w
        = (w', Ok None)
        /\ calls w' = (calls w ++ iterations fuel)%list)
  /\ (n < 0 ->
      exists w',
        run_continuous_build (S fuel) E agent_type (Some n) model w
        = (w', Ok (Some 1))
        /\ calls w' = calls w /\ created w' = created w).
Proof.
  split; [apply max_reached_spec|]. split.
  - intros HE.
    destruct (run_still_running fuel E agent_type model (Some 0) w HE)
      as (w' & Hrun & _ & _ & _ & _ & Hcalls); [reflexivity|].
    exists w'. split; assumption.
  - intros Hn.
    destruct (run_ends_at_once fuel E agent_type model (Some n) w)
      as (w' & Hrun & _ & _ & Hcreated & Hcalls).
    { simpl. apply andb_true_iff. split.
      - apply negb_true_iff, Z.eqb_neq. lia.
      - apply Z.ltb_lt. lia. }
    exists w'. repeat split; assumption.
Qed.

Lemma iteration_cap_guard_witness :
  (exists w',
     run_continuous_build 4 (serving []) "orchestrator" (Some 0)
       "claude-sonnet-4-5" world0
     = (w', Ok None)
     /\ calls w' = (calls world0 ++ iterations 4)%list)
  /\ (exists w',
        run_continuous_build 5 (serving []) "orchestrator" (Some (-2))
          "claude-sonnet-4-5" world0
        = (w', Ok (Some 1))
        /\ calls w' = calls world0 /\ created w' = created world0).
Proof.
  destruct (iteration_cap_guard 4 (serving []) "orchestrator"
              "claude-sonnet-4-5" None 1 (-2) world0) as (_ & H0 & Hneg).
  split.
  - apply H0, serving_dependable.
  - apply Hneg. lia.
Defined.

(** ** Delays and the session log *)

(** C8.  After an iteration whose runner has returned, the pass sleeps
    [AUTO_CONTINUE_DELAY], which is 5, whatever status the runner returned
    (and then the pause of 1 if iterations remain) and the loop goes on; so
    in a run the delays slept after [fuel] passes depend on the maximum and
    on the number of passes only, not on the outcomes of the iterations. *)
Theorem fixed_delay_whatever_status (fuel : nat) (E : env)
    (agent_type model : string) (max_iterations : option Z) (log : path)
    (iteration : Z) (w w1 : world) (status response : string) :
  AUTO_CONTINUE_DELAY = 5
  /\ (max_reached max_iterations iteration = false ->
      run_agent_iteration E agent_type iteration model w
      = (w1, Ok (status, response)) ->
      exists w',
        loop_body E agent_type max_iterations model log iteration w
        = (w', Ok true)
        /\ slept w'
           = (slept w1
              ++ AUTO_CONTINUE_DELAY
                 :: (if more_to_come max_iterations iteration
                     then [1] else []))%list)
  /\ (dependable E ->
      (forall k, (1 <= k <= fuel)%nat ->
         max_reached max_iterations (Z.of_nat k) = false) ->
      exists w',
        run_continuous_build fuel E agent_type max_iterations model w
        = (w', Ok None)
        /\ slept w'
           = (slept w
              ++ flat_map
                   (fun k =>
                      5 :: (if more_to_come max_iterations k
                            then [1] else []))
                   (iterations fuel))%list).
Proof.
  split; [reflexivity|]. split.
  - intros Hmax Hrun.
    destruct (loop_body_spec E agent_type model max_iterations log iteration
                w w1 status response Hmax Hrun)
      as (w' & Hbody & _ & _ & Hslept & _).
    exists w'. split; assumption.
  - intros HE Hmax.
    destruct (run_still_running fuel E agent_type model max_iterations w
                HE Hmax)
      as (w' & Hrun & _ & _ & Hslept & _).
    exists w'. split; assumption.
Qed.

Lemma fixed_delay_whatever_status_witness :
  (exists w',
     run_continuous_build 2 (serving []) "email" (Some 2)
       "claude-sonnet-4-5" world0
     = (w', Ok None)
     /\ slept w' = [5; 1; 5])
  /\ (exists w',
        run_continuous_build 2 (handing (refusing (Exception_ "down")))
          "email" (Some 2) "claude-sonnet-4-5" world0
        = (w', Ok None)
        /\ slept w' = [5; 1; 5]).
Proof.
  split.
  - apply (fixed_delay_whatever_status 2 (serving []) "email"
             "claude-sonnet-4-5" (Some 2) "" 1 world0 world0 "" "").
    + apply serving_dependable.
    + intros k Hk. apply cap_not_reached. vm_compute. lia.
  - apply (fixed_delay_whatever_status 2
             (handing (refusing (Exception_ "down"))) "email"
             "claude-sonnet-4-5" (Some 2) "" 1 world0 world0 "" "").
    + apply handing_refusing_dependable.
    + intros k Hk. apply cap_not_reached. vm_compute. lia.
Defined.

(** C6.  In a pass whose runner has returned, whatever the status, the
    response is written to the session log as one entry put after what
    the file held, and no other file changes.  So a run with a maximum [n]
    of at least 1 leaves in its log what the file held before, followed by
    the entries of the iterations [1 .. n] in that order, each one whole. *)
Theorem log_entries_appended_in_order (fuel : nat) (E : env)
    (agent_type model : string) (max_iterations : option Z) (log : path)
    (iteration : Z) (w w1 : world) (status response : string) (n : Z) :
  (max_reached max_iterations iteration = false ->
   run_agent_iteration E agent_type iteration model w
   = (w1, Ok (status, response)) ->
   exists w',
     loop_body E agent_type max_iterations model log iteration w
     = (w', Ok true)
     /\ PyDict.get (files w') log ""
        = PyDict.get (files w1) log ""
          ++ entry_text iteration (now E (clock_reads w1)) response
     /\ forall p, p <> log ->
          PyDict.lookup (files w') p = PyDict.lookup (files w1) p)
  /\ (dependable E -> 1 <= n -> (Z.to_nat n < fuel)%nat ->
      exists w',
        run_continuous_build fuel E agent_type (Some n) model w
        = (w', Ok (Some (n + 1)))
        /\ PyDict.get (files w')
             (session_log_path agent_type (now E (clock_reads w))) ""
           = PyDict.get (files w)
               (session_log_path agent_type (now E (clock_reads w))) ""
             ++ concat
                  (map (logged E agent_type model (created w)
                          (S (clock_reads w)))
                     (seq 1 (Z.to_nat n)))).
Proof.
  split.
  - intros Hmax Hrun.
    destruct (loop_body_spec E agent_type model max_iterations log iteration
                w w1 status response Hmax Hrun)
      as (w' & Hbody & Hlog & Hother & _).
    exists w'. repeat split; assumption.
  - intros HE Hn Hfuel.
    destruct (run_ends fuel (Z.to_nat n) E agent_type model (Some n) w HE
                Hfuel (cap_not_reached n) (cap_reached n Hn))
      as (w' & Hrun & Hlog & _).
    exists w'. rewrite Z2Nat.id in Hrun by lia. split; assumption.
Qed.

Lemma log_entries_appended_in_order_witness :
  exists w',
    run_continuous_build 3
      (handing (streaming [AssistantMessage (Some [TextBlock (Some "one")])]))
      "email" (Some 2) "claude-sonnet-4-5" world0
    = (w', Ok (Some (2 + 1)))
    /\ PyDict.get (files w')
         (session_log_path "email" (mkInstant "" "")) ""
       = ""
         ++ concat
              [entry_text 1 (mkInstant "" "") "one";
               entry_text 2 (mkInstant "" "") "one"].
Proof.
  apply (log_entries_appended_in_order 3
           (handing
              (streaming [AssistantMessage (Some [TextBlock (Some "one")])]))
           "email" "claude-sonnet-4-5" None "" 1 world0 world0 "" "" 2).
  - apply (serving_dependable
             [AssistantMessage (Some [TextBlock (Some "one")])]).
  - lia.
  - vm_compute. lia.
Defined.

(** ** Folding the response events *)

Lemma streaming_never_raises (ms : list message) (prompt : string) :
  with_block_raise (streaming ms) prompt = None.
Proof.
  unfold with_block_raise. simpl.
  induction ms as [|m ms IH]; simpl; auto.
Qed.

Lemma stream_messages_yields (ms : list message) :
  stream_messages (yields ms) = ms.
Proof. induction ms as [|m ms IH]; simpl; congruence. Qed.

Lemma outcome_for_streaming (ms : list message) (prompt : string) :
  outcome_for (streaming ms) prompt
  = Ok ("success", aggregated_text (events_of ms)).
Proof.
  unfold outcome_for. rewrite streaming_never_raises. simpl.
  now rewrite stream_messages_yields.
Qed.

Lemma outcome_for_status (c : client) (prompt status text : string) :
  outcome_for c prompt = Ok (status, text) ->
  status = "success" \/ status = "error".
Proof.
  unfold outcome_for. destruct (with_block_raise c prompt) as [e|].
  - destruct (is_Exception e); intros H; inversion H. now right.
  - intros H; inversion H. now left.
Qed.

(** The pair returned by the runner does not tell which tools were
    invoked: two responses with the same text and different tool
    invocations give the same pair. *)
Lemma runner_outcome_has_no_tool_names :
  ~ exists names_of : result (string * string) -> list string,
      forall ms : list message,
        names_of
          (snd (run_agent_iteration (serving ms) "orchestrator" 1
                  "claude-sonnet-4-5" world0))
        = tool_names (events_of ms).
Proof.
  intros [names_of H].
  pose proof (H (map message_of_event
                   [TextFragment "a"; ToolInvocation "x"; TextFragment "b"]))
    as H1.
  pose proof (H (map message_of_event [TextFragment "a"; TextFragment "b"]))
    as H2.
  rewrite (run_agent_iteration_outcome (serving _) _ _ _ _ _ eq_refl),
    outcome_for_streaming, events_of_embedding in H1.
  rewrite (run_agent_iteration_outcome (serving _) _ _ _ _ _ eq_refl),
    outcome_for_streaming, events_of_embedding in H2.
  simpl in H1, H2. rewrite H2 in H1. discriminate.
Qed.

Lemma yields_never_raises (ms : list message) :
  stream_raise (yields ms) = None.
Proof. induction ms as [|m ms IH]; simpl; auto. Qed.

(** The runner on a session that is entered and queried without raising and
    yields the messages [ms] to their end. *)
Lemma outcome_for_consumed (c : client) (prompt : string)
    (ms : list message) :
  aenter c = None -> query c prompt = None ->
  receive_response c prompt = yields ms ->
  outcome_for c prompt
  = match aexit c with
    | None => Ok ("success", aggregated_text (events_of ms))
    | Some e => if is_Exception e then Ok ("error", exn_str e) else Raise e
    end.
Proof.
  intros Hin Hq Hr. unfold outcome_for, with_block_raise.
  rewrite Hin, Hq, Hr. destruct (aexit c) as [e|]; [reflexivity|].
  now rewrite yields_never_raises, stream_messages_yields.
Qed.

(** C3, amended.  For every finite sequence of messages [ms] that a session,
    entered and queried without raising, yields to its end, with [evs] the
    response events in it:
    when releasing the session raises nothing, the runner returns the pair
    of ["success"] and the contents of the text fragments of [evs] put
    together in order; when releasing it raises an instance of [Exception],
    the runner returns the pair of ["error"] and [str] of that exception,
    and any other exception leaves the runner; whenever the runner returns a
    pair its status is ["success"] or ["error"].  The wrapper's
    [send_message], on such a session released without raising, prints
    after the records of the events a [complete] record that holds the same
    text and the names of the tool invocations of [evs] in order, repeated
    names kept.  Every sequence of events of the specification is the
    events of a sequence of messages, and for a text [a], a tool [x] and a
    text [b] the text is [ab] and the names are [x] alone. *)
Theorem response_events_fold (ms : list message) (E : env)
    (agent_type model : string) (iteration : Z) (w : world) (c : client)
    (wrt : runtime) (message : string) (working_dir : option string)
    (ww : Wrapper.world) (wc : client) :
  (rt E (S (created w)) (str_of_path ECHO_MVP_DIR) model = Ok c ->
   aenter c = None ->
   query c (prompt_text agent_type iteration) = None ->
   receive_response c (prompt_text agent_type iteration) = yields ms ->
   snd (run_agent_iteration E agent_type iteration model w)
   = match aexit c with
     | None => Ok ("success", aggregated_text (events_of ms))
     | Some e => if is_Exception e then Ok ("error", exn_str e) else Raise e
     end)
  /\ (forall w' status text,
        run_agent_iteration E agent_type iteration model w
        = (w', Ok (status, text)) ->
        status = "success" \/ status = "error")
  /\ (wrt (S (Wrapper.created ww))
        match working_dir with
        | None => Wrapper.LIFEOS_ROOT
        | Some d => d
        end "claude-sonnet-4-5"
      = Ok wc ->
      aenter wc = None ->
      query wc message = None ->
      receive_response wc message = yields ms ->
      aexit wc = None ->
      Wrapper.send_message wrt message working_dir ww
      = (Wrapper.mkWorld
           (Wrapper.stdout ww
            ++ Wrapper.records_of (events_of ms)
            ++ [Wrapper.complete_record (aggregated_text (events_of ms))
                  (tool_names (events_of ms))])%list
           (S (Wrapper.created ww)),
         Ok tt))
  /\ (forall evs, events_of (map message_of_event evs) = evs)
  /\ aggregated_text [TextFragment "a"; ToolInvocation "x"; TextFragment "b"]
     = "ab"
  /\ tool_names [TextFragment "a"; ToolInvocation "x"; TextFragment "b"]
     = ["x"].
Proof.
  split; [|split; [|split; [|split; [|split]]]].
  - intros Hc Hin Hq Hr.
    rewrite (run_agent_iteration_outcome _ _ _ _ _ _ Hc).
    now apply outcome_for_consumed.
  - intros w' status text Hrun.
    destruct (rt E (S (created w)) (str_of_path ECHO_MVP_DIR) model)
      as [c'|e] eqn:Hc.
    + pose proof (run_agent_iteration_outcome E agent_type model iteration
                    w c' Hc) as Hout.
      rewrite Hrun in Hout. simpl in Hout. symmetry in Hout.
      exact (outcome_for_status _ _ _ _ Hout).
    + pose proof (create_client_failure_propagates E agent_type model
                    iteration w e Hc) as Hout.
      rewrite Hrun in Hout. discriminate.
  - intros Hc Hin Hq Hr Hout.
    pose proof (send_message_spec wrt message working_dir ww) as Hsend.
    cbv zeta in Hsend. rewrite Hc in Hsend.
    unfold Wrapper.ending, Wrapper.failure, Wrapper.streamed,
      with_block_raise in Hsend.
    rewrite Hin, Hq, Hr, Hout, yields_never_raises,
      stream_messages_yields in Hsend.
    cbn [fst snd] in Hsend. apply Hsend. discriminate.
  - apply events_of_embedding.
  - reflexivity.
  - reflexivity.
Qed.

Lemma response_events_fold_witness :
  snd (run_agent_iteration
         (serving
            (map message_of_event
               [TextFragment "a"; ToolInvocation "x"; TextFragment "b"]))
         "orchestrator" 1 "claude-sonnet-4-5" world0)
  = Ok ("success", "ab")
  /\ Wrapper.send_message
       (Wrapper.serving
          (map message_of_event
             [TextFragment "a"; ToolInvocation "x"; TextFragment "b"]))
       "hello" None Wrapper.world0
     = (Wrapper.mkWorld
          [Wrapper.text_record "a"; Wrapper.tool_record "x";
           Wrapper.text_record "b"; Wrapper.complete_record "ab" ["x"]]
          1,
        Ok tt).
Proof.
  destruct (response_events_fold
              (map message_of_event
                 [TextFragment "a"; ToolInvocation "x"; TextFragment "b"])
              (serving
                 (map message_of_event
                    [TextFragment "a"; ToolInvocation "x"; TextFragment "b"]))
              "orchestrator" "claude-sonnet-4-5" 1 world0
              (streaming
                 (map message_of_event
                    [TextFragment "a"; ToolInvocation "x"; TextFragment "b"]))
              (Wrapper.serving
                 (map message_of_event
                    [TextFragment "a"; ToolInvocation "x"; TextFragment "b"]))
              "hello" None Wrapper.world0
              (streaming
                 (map message_of_event
                    [TextFragment "a"; ToolInvocation "x"; TextFragment "b"])))
    as (Hrun & _ & Hsend & _).
  split.
  - apply Hrun; reflexivity.
  - apply Hsend; reflexivity.
Defined.

(** ** The records of the wrapper *)

Lemma record_kind (ev : ResponseEvent) :
  exists k, Wrapper.kind (Wrapper.record ev) = Some k
            /\ In k Wrapper.event_kinds.
Proof.
  destruct ev as [t|n|x y]; simpl; eexists; (split; [reflexivity|]);
    simpl; auto.
Qed.

(** With a response that holds one tool result that is not an error, the
    wrapper prints the [complete] record and nothing for that event. *)
Lemma silent_on_tool_success :
  events_of [UserMessage (Some [ToolResultBlock false "ok"])]
  = [ToolResult false "ok"]
  /\ Wrapper.main
       (Wrapper.serving [UserMessage (Some [ToolResultBlock false "ok"])])
       ["claude_code_wrapper.py"; "hello"] Wrapper.world0
     = (Wrapper.mkWorld [Wrapper.complete_record "" []] 1, Ok tt).
Proof. split; reflexivity. Qed.

Lemma closing_kinds (r : result client) (message : string) :
  Forall
    (fun v => exists k, Wrapper.kind v = Some k /\ In k Wrapper.event_kinds)
    (fst (Wrapper.closing r message)).
Proof.
  unfold Wrapper.closing. destruct (Wrapper.failure r message) as [e|].
  - destruct (is_Exception e); cbn [fst]; repeat constructor.
    eexists. split; [reflexivity|]. simpl. auto 6.
  - cbn [fst]. repeat constructor.
    eexists. split; [reflexivity|]. simpl. auto 6.
Qed.

(** C7, amended.  Given a message and an optional working directory,
    [send_message] prints one record for each text fragment, each tool
    invocation and each tool result that is an error, in the order of the
    events it consumed, and none for a tool result that is not an error.
    Then it ends in one of three ways: when nothing was raised, it prints a
    [complete] record with the text put together and the tool names, and
    the process ends with status 0; when an instance of [Exception] was
    raised, it prints an [error] record with [str] of the exception and
    calls [sys.exit(1)]; when what was raised is no instance of
    [Exception], it prints no further record and that exception leaves it.
    Every record printed has its [type] among [text], [tool], [tool_error],
    [complete], [error].  [main] hands the first argument and, when there is
    one, the second to [send_message]. *)
Theorem wrapper_prints_records (wrt : runtime) (message : string)
    (working_dir : option string) (w : Wrapper.world)
    (prog : string) (rest : list string) :
  let r :=
    wrt (S (Wrapper.created w))
      match working_dir with
      | None => Wrapper.LIFEOS_ROOT
      | Some d => d
      end "claude-sonnet-4-5" in
  let evs := Wrapper.streamed r message in
  exists last ending,
    Wrapper.send_message wrt message working_dir w
    = (Wrapper.mkWorld
         (Wrapper.stdout w
          ++ map Wrapper.record (filter Wrapper.reported evs)
          ++ last)%list
         (S (Wrapper.created w)),
       ending)
    /\ Forall
         (fun v => exists k, Wrapper.kind v = Some k
                             /\ In k Wrapper.event_kinds)
         (map Wrapper.record (filter Wrapper.reported evs) ++ last)
    /\ ((Wrapper.failure r message = None
         /\ last = [Wrapper.complete_record (aggregated_text evs)
                      (tool_names evs)]
         /\ ending = Ok tt /\ exit_status ending = 0)
        \/ (exists e,
              Wrapper.failure r message = Some e
              /\ is_Exception e = true
              /\ last = [Wrapper.error_record (exn_str e)]
              /\ ending = Raise (SystemExit 1)
              /\ exit_status ending = 1)
        \/ (exists e,
              Wrapper.failure r message = Some e
              /\ is_Exception e = false
              /\ last = []
              /\ ending = Raise e))
    /\ Wrapper.main wrt (prog :: message :: rest) w
       = Wrapper.send_message wrt message (hd_error rest) w.
Proof.
  intros r evs.
  exists (fst (Wrapper.closing r message)), (snd (Wrapper.closing r message)).
  split; [exact (send_message_closing wrt message working_dir w)|].
  split; [|split].
  - apply Forall_app. split.
    + apply Forall_forall. intros v Hv.
      apply in_map_iff in Hv as (ev & <- & _). apply record_kind.
    + apply closing_kinds.
  - unfold Wrapper.closing. fold evs.
    destruct (Wrapper.failure r message) as [e|].
    + destruct (is_Exception e) eqn:Hcls.
      * right. left. exists e. repeat split; exact Hcls.
      * right. right. exists e. repeat split; exact Hcls.
    + left. repeat split.
  - unfold Wrapper.main. destruct rest as [|d rest]; reflexivity.
Qed.

Lemma wrapper_prints_records_witness :
  exists last ending,
    Wrapper.send_message (fun _ _ _ => Ok (refusing (Exception_ "down")))
      "hello" None Wrapper.world0
    = (Wrapper.mkWorld ([] ++ [] ++ last)%list 1, ending)
    /\ last = [Wrapper.error_record "down"]
    /\ exit_status ending = 1.
Proof.
  destruct (wrapper_prints_records
              (fun _ _ _ => Ok (refusing (Exception_ "down")))
              "hello" None Wrapper.world0 "claude_code_wrapper.py" [])
    as (last & ending & Hsend & _
        & [(Hnone & _)
          |[(e & He & _ & Hlast & Hend & Hexit)|(e & He & Hcls & _)]]
        & _).
  - vm_compute in Hnone. discriminate.
  - exists last, ending. vm_compute in He. inversion He; subst e.
    split; [exact Hsend|]. split; [exact Hlast | exact Hexit].
  - vm_compute in He. inversion He; subst e. discriminate Hcls.
Defined.

(** C10.  Called with fewer than two arguments, that is with no message,
    [main] prints the one object whose member [error] is the text
    [No message provided] and calls [sys.exit(1)]: the process ends with
    status 1, and [create_client] has not been called. *)
Theorem no_message_argument (wrt : runtime) (argv : list string)
    (w : Wrapper.world) :
  (length argv < 2)%nat ->
  Wrapper.main wrt argv w
  = (Wrapper.mkWorld
       (Wrapper.stdout w
        ++ [Wrapper.JObject
              [("error", Wrapper.JString "No message provided")]])%list
       (Wrapper.created w),
     Raise (SystemExit 1))
  /\ exit_status (snd (Wrapper.main wrt argv w)) = 1.
Proof.
  intros Hlen. unfold Wrapper.main.
  destruct (Nat.ltb_spec (length argv) 2) as [_|H]; [|lia].
  split; reflexivity.
Qed.

Lemma no_message_argument_witness :
  Wrapper.main (Wrapper.serving []) ["claude_code_wrapper.py"] Wrapper.world0
  = (Wrapper.mkWorld
       (Wrapper.stdout Wrapper.world0
        ++ [Wrapper.JObject
              [("error", Wrapper.JString "No message provided")]])%list
       (Wrapper.created Wrapper.world0),
     Raise (SystemExit 1))
  /\ exit_status
       (snd (Wrapper.main (Wrapper.serving []) ["claude_code_wrapper.py"]
               Wrapper.world0)) = 1.
Proof.
  apply (no_message_argument (Wrapper.serving []) ["claude_code_wrapper.py"]
           Wrapper.world0).
  simpl. lia.
Defined.

(** * Further properties *)

(** ** Prompts for any role *)

Lemma lookup_present {V} (d : PyDict.dict V) (k : string) (v : V) :
  PyDict.lookup d k = Some v -> In k (PyDict.keys d) /\ In v (map snd d).
Proof.
  induction d as [|[k' v'] d IH]; simpl; [discriminate|].
  destruct (String.eqb_spec k' k) as [->|_].
  - intros H; inversion H; subst. auto.
  - intros H. destruct (IH H). auto.
Qed.

Lemma any_body_resolved (role token : string) :
  In token placeholders ->
  contains token
    (resolve_paths (PyDict.get agent_prompts role body_orchestrator)
     ++ footer) = false.
Proof.
  intros Htoken.
  destruct (PyDict.lookup agent_prompts role) as [v|] eqn:Hl.
  - apply recognized_body_resolved; auto.
    exact (proj1 (lookup_present _ _ _ Hl)).
  - unfold PyDict.get at 1. rewrite Hl, <- orchestrator_get.
    apply recognized_body_resolved; auto.
    rewrite agent_prompts_keys. simpl. auto 8.
Qed.

Lemma replace_absent (old new s : string) :
  contains old s = false -> replace old new s = s.
Proof.
  destruct old as [|o old].
  - rewrite contains_unfold. now destruct s.
  - unfold replace. induction s as [|c s IH]; [reflexivity|].
    rewrite contains_unfold. intros H.
    apply orb_false_iff in H as [Hp Hs].
    cbn [replace_from]. rewrite Hp. now rewrite (IH Hs).
Qed.

(** X1.  For every role name without an opening brace, recognized or not, and
    every iteration number, the prompt holds none of the placeholder
    tokens and shows the iteration number, and making the four replacements
    on it once more leaves it as it is. *)
Theorem prompt_resolved_for_plain_role (role : string) (iteration : Z) :
  lacks "{" role = true ->
  exists prompt,
    get_agent_prompt role iteration = Ok prompt
    /\ (forall token, In token placeholders -> contains token prompt = false)
    /\ contains (str_of_int iteration) prompt = true
    /\ resubstitute prompt = prompt.
Proof.
  intros Hrole. eexists. split; [apply get_agent_prompt_sections|].
  pose proof (common_context_lacks role iteration Hrole) as Hhead.
  rewrite (resolve_paths_lacks _ Hhead).
  assert (Hnone : forall token, In token placeholders ->
            contains token
              (common_context role iteration
               ++ resolve_paths
                    (PyDict.get agent_prompts role body_orchestrator)
               ++ footer) = false).
  { intros token Htoken. apply token_absent; auto.
    intros t Ht. now apply any_body_resolved. }
  split; [exact Hnone|]. split; [apply iteration_shown|].
  unfold resubstitute.
  rewrite (replace_absent "{root}") by (apply Hnone; simpl; auto).
  rewrite (replace_absent "{echo}") by (apply Hnone; simpl; auto).
  rewrite (replace_absent "{mastra}") by (apply Hnone; simpl; auto).
  apply replace_absent. apply Hnone. simpl. auto.
Qed.

Lemma prompt_resolved_for_plain_role_witness :
  exists prompt,
    get_agent_prompt "reviewer" 12 = Ok prompt
    /\ (forall token, In token placeholders -> contains token prompt = false)
    /\ contains (str_of_int 12) prompt = true
    /\ resubstitute prompt = prompt.
Proof.
  apply (prompt_resolved_for_plain_role "reviewer" 12). reflexivity.
Defined.

(** ** The template registry *)

Lemma get_in_values {V} (d : PyDict.dict V) (k : string) (dflt : V) :
  In (PyDict.get d k dflt) (dflt :: map snd d).
Proof.
  unfold PyDict.get. destruct (PyDict.lookup d k) as [v|] eqn:Hl.
  - right. exact (proj2 (lookup_present _ _ _ Hl)).
  - now left.
Qed.

(** X2.  The registry is written with the key [frontend] twice.  The second
    body is the one registered, and the first is the task body of no
    prompt, whatever the role asked for. *)
Theorem first_frontend_body_is_dead (role : string) :
  PyDict.get agent_prompts role body_orchestrator <> body_frontend
  /\ PyDict.lookup agent_prompts "frontend" = Some body_frontend_2
  /\ body_frontend_2 <> body_frontend
  /\ In ("frontend", body_frontend) agent_prompts_literal.
Proof.
  assert (Hall : forallb (fun v => negb (String.eqb v body_frontend))
                   (body_orchestrator :: map snd agent_prompts) = true)
    by (vm_compute; reflexivity).
  rewrite forallb_forall in Hall.
  assert (Hne : forall v, In v (body_orchestrator :: map snd agent_prompts) ->
                          v <> body_frontend).
  { intros v Hv Heq. apply Hall in Hv. rewrite Heq, String.eqb_refl in Hv.
    discriminate. }
  split; [apply Hne, get_in_values|]. split; [vm_compute; reflexivity|].
  split.
  - apply Hne. right. vm_compute. auto 10.
  - unfold agent_prompts_literal. simpl. auto 10.
Qed.

(** ** The runner: what its status tells, what it prints *)

Lemma run_agent_iteration_frame (E : env) (agent_type model : string)
    (iteration : Z) (w : world) :
  files (fst (run_agent_iteration E agent_type iteration model w)) = files w
  /\ created (fst (run_agent_iteration E agent_type iteration model w))
     = S (created w)
  /\ calls (fst (run_agent_iteration E agent_type iteration model w))
     = (calls w ++ [iteration])%list
  /\ slept (fst (run_agent_iteration E agent_type iteration model w))
     = slept w
  /\ clock_reads (fst (run_agent_iteration E agent_type iteration model w))
     = clock_reads w.
Proof.
  destruct (rt E (S (created w)) (str_of_path ECHO_MVP_DIR) model)
    as [c|e] eqn:Hc.
  - destruct (run_agent_iteration_spec E agent_type model iteration w c Hc)
      as (prompt & w1 & _ & Hrun & H1 & H2 & H3 & H4 & H5).
    rewrite Hrun. cbn [fst]. auto.
  - unfold run_agent_iteration. do 4 step.
    erewrite bind_raise;
      [|unfold Builder.create_client; cbn [created]; rewrite Hc; reflexivity].
    repeat split.
Qed.

(** X4.  The status returned by the runner tells whether the session raised, and
    nothing else: it is ["success"] exactly when nothing was raised, the text
    then being that of the text fragments, however many tool results were
    errors; it is ["error"] exactly when an instance of [Exception] left the
    session, the text then being [str] of it and the text received before
    being dropped. *)
Theorem status_tells_whether_session_raised (E : env)
    (agent_type model : string) (iteration : Z) (w w' : world) (c : client)
    (status text : string) :
  rt E (S (created w)) (str_of_path ECHO_MVP_DIR) model = Ok c ->
  run_agent_iteration E agent_type iteration model w
  = (w', Ok (status, text)) ->
  (status = "success"
   /\ with_block_raise c (prompt_text agent_type iteration) = None
   /\ text
      = aggregated_text
          (events_of
             (stream_messages
                (receive_response c (prompt_text agent_type iteration)))))
  \/ (status = "error"
      /\ exists e,
           with_block_raise c (prompt_text agent_type iteration) = Some e
           /\ is_Exception e = true /\ text = exn_str e).
Proof.
  intros Hc Hrun.
  pose proof (run_agent_iteration_outcome E agent_type model iteration w c Hc)
    as Hout.
  rewrite Hrun in Hout. cbn [snd] in Hout. unfold outcome_for in Hout.
  destruct (with_block_raise c (prompt_text agent_type iteration)) as [e|].
  - destruct (is_Exception e) eqn:He; [|discriminate].
    inversion Hout; subst. right. split; [reflexivity|].
    exists e. auto.
  - inversion Hout; subst. left. auto.
Qed.

Lemma status_tells_whether_session_raised_witness :
  ("success" = "success"
   /\ with_block_raise
        (streaming [UserMessage (Some [ToolResultBlock true "boom"])])
        (prompt_text "email" 1) = None
   /\ "" = aggregated_text
             (events_of
                (stream_messages
                   (receive_response
                      (streaming
                         [UserMessage (Some [ToolResultBlock true "boom"])])
                      (prompt_text "email" 1)))))
  \/ ("success" = "error"
      /\ exists e,
           with_block_raise
             (streaming [UserMessage (Some [ToolResultBlock true "boom"])])
             (prompt_text "email" 1) = Some e
           /\ is_Exception e = true /\ "" = exn_str e).
Proof.
  apply (status_tells_whether_session_raised
           (serving [UserMessage (Some [ToolResultBlock true "boom"])])
           "email" "claude-sonnet-4-5" 1 world0
           (fst (run_agent_iteration
                   (serving [UserMessage (Some [ToolResultBlock true "boom"])])
                   "email" 1 "claude-sonnet-4-5" world0))
           (streaming [UserMessage (Some [ToolResultBlock true "boom"])])
           "success" "").
  - reflexivity.
  - vm_compute. reflexivity.
Defined.

Lemma concat_app (a b : list string) :
  concat (a ++ b) = concat a ++ concat b.
Proof.
  unfold concat. induction a as [|x a IH]; simpl; [reflexivity|].
  now rewrite IH, string_app_assoc.
Qed.

Lemma echoes_app (a b : list ResponseEvent) :
  concat (map echo (a ++ b)) = concat (map echo a) ++ concat (map echo b).
Proof. now rewrite map_app, concat_app. Qed.

Lemma assistant_blocks_stdout (bs : list block) (text : string) (w : world) :
  stdout (fst (Builder.assistant_blocks bs text w))
  = stdout w ++ concat (map echo (flat_map assistant_event bs)).
Proof.
  revert text w. induction bs as [|b bs IH]; intros text w.
  - simpl. now rewrite string_app_nil_r.
  - destruct b as [[t|]|name|err content|];
      cbn [Builder.assistant_blocks flat_map assistant_event];
      try (rewrite IH; reflexivity).
    + unfold bind at 1, print_end at 1. rewrite IH, echoes_app.
      cbn [stdout map concat fold_right echo].
      now rewrite !string_app_nil_r, string_app_assoc.
    + unfold bind at 1, print at 1, print_end at 1. rewrite IH, echoes_app.
      cbn [stdout]. destruct name as [name|];
        cbn [map concat fold_right echo];
        now rewrite !string_app_nil_r, !string_app_assoc.
Qed.

Lemma user_blocks_stdout (bs : list block) (w : world) :
  stdout (fst (Builder.user_blocks bs w))
  = stdout w ++ concat (map echo (flat_map user_event bs)).
Proof.
  revert w. induction bs as [|b bs IH]; intros w.
  - simpl. now rewrite string_app_nil_r.
  - destruct b as [t|name|err content|];
      cbn [Builder.user_blocks flat_map user_event];
      try (rewrite IH; reflexivity).
    rewrite echoes_app.
    destruct err; unfold bind at 1, print at 1, print_end at 1; rewrite IH;
      cbn [stdout map concat fold_right echo];
      now rewrite !string_app_nil_r, !string_app_assoc.
Qed.

Lemma receive_loop_stdout (r : response) (text : string) (w : world) :
  stdout (fst (Builder.receive_loop r text w))
  = stdout w ++ concat (map echo (events_of (stream_messages r))).
Proof.
  revert text w. induction r as [|m rest IH|e]; intros text w.
  - simpl. now rewrite string_app_nil_r.
  - cbn [Builder.receive_loop stream_messages].
    unfold events_of. cbn [flat_map]. fold (events_of (stream_messages rest)).
    rewrite echoes_app.
    destruct m as [[bs|]|[bs|]|]; cbn [events_of_message].
    + destruct (assistant_blocks_spec bs text w) as (w1 & E1 & _).
      pose proof (assistant_blocks_stdout bs text w) as H1.
      rewrite E1 in H1. cbn [fst] in H1.
      rewrite (bind_ok _ _ _ _ _ E1), IH, H1.
      now rewrite string_app_assoc.
    + unfold bind at 1, ret at 1. rewrite IH.
      cbn [map concat fold_right]. reflexivity.
    + destruct (user_blocks_spec bs w) as (w1 & E1 & _).
      pose proof (user_blocks_stdout bs w) as H1.
      rewrite E1 in H1. cbn [fst] in H1.
      unfold bind at 1. unfold bind at 1. rewrite E1. unfold ret at 1.
      rewrite IH, H1. now rewrite string_app_assoc.
    + unfold bind at 1, ret at 1. rewrite IH.
      cbn [map concat fold_right]. reflexivity.
    + unfold bind at 1, ret at 1. rewrite IH.
      cbn [map concat fold_right]. reflexivity.
  - simpl. now rewrite string_app_nil_r.
Qed.

Lemma len_app (a b : string) : len (a ++ b) = (len a + len b)%nat.
Proof.
  induction a as [|x a IH]; simpl; [reflexivity|].
  destruct (continuation x); now rewrite IH.
Qed.

(** A slice holds the code points asked for, or all of them when there are
    fewer, and it is the beginning of the string. *)
Lemma len_take (n : nat) (s : string) :
  len (take n s) = Nat.min n (len s).
Proof.
  revert n. induction s as [|c s IH]; intros n; simpl.
  - now rewrite Nat.min_0_r.
  - destruct (continuation c) eqn:Hc; simpl; rewrite ?Hc.
    + apply IH.
    + destruct n as [|n]; simpl; rewrite ?Hc; [reflexivity|].
      now rewrite IH.
Qed.

Lemma take_prefix (n : nat) (s : string) :
  exists rest, s = take n s ++ rest.
Proof.
  revert n. induction s as [|c s IH]; intros n; simpl.
  - now exists "".
  - destruct (continuation c).
    + destruct (IH n) as (rest & Hrest). exists rest. simpl. congruence.
    + destruct n as [|n].
      * now exists (String c s).
      * destruct (IH n) as (rest & Hrest). exists rest. simpl. congruence.
Qed.

Lemma session_stdout (c : client) (prompt : string) (w : world) :
  (forall e, with_block_raise c prompt = Some e -> is_Exception e = true) ->
  stdout
    (fst
       (try_except
          (async_with c
             (raising (query c prompt) ;;
              response_text <-
                Builder.receive_loop (receive_response c prompt) "" ;;
              print (lf ++ rule "-" ++ lf) ;;
              ret ("success", response_text)))
          (fun e =>
             print (lf ++ "Error in agent iteration: " ++ exn_str e) ;;
             ret ("error", exn_str e)) w))
  = stdout w ++ concat (map echo (consumed c prompt))
    ++ runner_closing c prompt.
Proof.
  intros Hexc.
  unfold try_except, async_with, consumed, runner_closing.
  unfold with_block_raise in *.
  destruct (aenter c) as [e|].
  { rewrite (Hexc e eq_refl). reflexivity. }
  destruct (query c prompt) as [e|]; cbn [raising].
  { rewrite (bind_raise _ _ w w e) by reflexivity.
    destruct (aexit c) as [e'|];
      [rewrite (Hexc e' eq_refl) | rewrite (Hexc e eq_refl)]; reflexivity. }
  rewrite (bind_ok _ _ w w tt) by reflexivity.
  destruct (receive_loop_spec (receive_response c prompt) "" w)
    as (w1 & E1 & _).
  pose proof (receive_loop_stdout (receive_response c prompt) "" w) as H1.
  rewrite E1 in H1. cbn [fst] in H1.
  destruct (stream_raise (receive_response c prompt)) as [e|].
  { rewrite (bind_raise _ _ _ _ _ E1).
    destruct (aexit c) as [e'|];
      [rewrite (Hexc e' eq_refl) | rewrite (Hexc e eq_refl)];
      unfold bind, print, print_end, ret; cbn [fst stdout];
      now rewrite H1, !string_app_assoc. }
  rewrite (bind_ok _ _ _ _ _ E1).
  unfold bind at 1, print at 1, print_end at 1, ret at 1.
  destruct (aexit c) as [e'|].
  { rewrite (Hexc e' eq_refl).
    unfold bind, print, print_end, ret; cbn [fst stdout].
    now rewrite H1, !string_app_assoc. }
  cbn [fst stdout]. now rewrite H1, !string_app_assoc.
Qed.

(** X5.  What one call of the runner prints for a role written in ASCII,
    when the runtime hands out a client whose session raises instances of
    [Exception] only: its banner; then, for the events it has consumed and
    in their order, each text fragment as it is, a [Tool] marker for each
    tool invocation, and for each tool result either [Done] or [Error] with
    the first 300 characters of its content, the line then having 312
    characters at most however long the content; then the closing rule or
    the line that reports the exception. *)
Theorem runner_output (E : env) (agent_type model : string)
    (iteration : Z) (w : world) (c : client) :
  is_ascii agent_type = true ->
  rt E (S (created w)) (str_of_path ECHO_MVP_DIR) model = Ok c ->
  (forall e,
      with_block_raise c (prompt_text agent_type iteration) = Some e ->
      is_Exception e = true) ->
  stdout (fst (run_agent_iteration E agent_type iteration model w))
  = stdout w
    ++ runner_banner agent_type iteration
    ++ concat (map echo (consumed c (prompt_text agent_type iteration)))
    ++ runner_closing c (prompt_text agent_type iteration)
  /\ forall content,
       echo (ToolResult true content)
       = ("   [Error] " ++ take 300 content) ++ lf
       /\ len (take 300 content) = Nat.min 300 (len content)
       /\ (len (echo (ToolResult true content)) <= 312)%nat.
Proof.
  intros _ Hc Hexc. split.
  - unfold run_agent_iteration. rewrite prompt_text_ok.
    do 4 step.
    erewrite bind_ok
      by (unfold Builder.create_client; cbn [created]; rewrite Hc;
          reflexivity).
    step. rewrite session_stdout by exact Hexc.
    cbn [stdout]. unfold runner_banner. now rewrite !string_app_assoc.
  - intros content. pose proof (len_take 300 content) as H.
    split; [reflexivity|]. split; [exact H|].
    unfold echo. rewrite !len_app, H.
    change (len "   [Error] ") with 11%nat.
    change (len lf) with 1%nat. lia.
Qed.

Lemma runner_output_witness :
  stdout
    (fst (run_agent_iteration
            (serving
               [AssistantMessage (Some [TextBlock (Some "hi")]);
                UserMessage
                  (Some [ToolResultBlock true (times e_acute 400)])])
            "email" 1 "claude-sonnet-4-5" world0))
  = stdout world0
    ++ runner_banner "email" 1
    ++ concat
         (map echo
            (consumed
               (streaming
                  [AssistantMessage (Some [TextBlock (Some "hi")]);
                   UserMessage
                     (Some [ToolResultBlock true (times e_acute 400)])])
               (prompt_text "email" 1)))
    ++ runner_closing
         (streaming
            [AssistantMessage (Some [TextBlock (Some "hi")]);
             UserMessage (Some [ToolResultBlock true (times e_acute 400)])])
         (prompt_text "email" 1)
  /\ echo (ToolResult true (times e_acute 400))
     = ("   [Error] " ++ times e_acute 300) ++ lf.
Proof.
  destruct (runner_output
              (serving
                 [AssistantMessage (Some [TextBlock (Some "hi")]);
                  UserMessage
                    (Some [ToolResultBlock true (times e_acute 400)])])
              "email" "claude-sonnet-4-5" 1 world0
              (streaming
                 [AssistantMessage (Some [TextBlock (Some "hi")]);
                  UserMessage
                    (Some [ToolResultBlock true (times e_acute 400)])]))
    as (Hout & Hcut).
  - reflexivity.
  - reflexivity.
  - intros e H. rewrite streaming_never_raises in H. discriminate H.
  - split; [exact Hout|].
    destruct (Hcut (times e_acute 400)) as (Hecho & _).
    rewrite Hecho. vm_compute. reflexivity.
Defined.

(** ** The wrapper: its records against each other and against the runner *)

Lemma texts_printed_records (evs : list ResponseEvent) :
  Wrapper.texts_printed (Wrapper.records_of evs) = aggregated_text evs.
Proof.
  unfold Wrapper.records_of.
  induction evs as [|[t|n|[] y] evs IH]; simpl; auto. now rewrite IH.
Qed.

Lemma tools_printed_records (evs : list ResponseEvent) :
  Wrapper.tools_printed (Wrapper.records_of evs) = tool_names evs.
Proof.
  unfold Wrapper.records_of.
  induction evs as [|[t|n|[] y] evs IH]; simpl; auto. now rewrite IH.
Qed.

(** X6.  When [send_message] ends with a [complete] record, that record can be
    rebuilt from the records printed before it: its response is the contents
    of the [text] records put together and its tool list is the names of
    the [tool] records, both in the order printed. *)
Theorem complete_record_sums_up_the_stream (wrt : runtime)
    (message : string) (working_dir : option string) (w : Wrapper.world) :
  let r :=
    wrt (S (Wrapper.created w))
      match working_dir with
      | None => Wrapper.LIFEOS_ROOT
      | Some d => d
      end "claude-sonnet-4-5" in
  Wrapper.failure r message = None ->
  exists printed,
    Wrapper.send_message wrt message working_dir w
    = (Wrapper.mkWorld
         (Wrapper.stdout w
          ++ printed
          ++ [Wrapper.complete_record (Wrapper.texts_printed printed)
                (Wrapper.tools_printed printed)])%list
         (S (Wrapper.created w)),
       Ok tt).
Proof.
  intros r Hnone.
  exists (Wrapper.records_of (Wrapper.streamed r message)).
  pose proof (send_message_spec wrt message working_dir w) as Hsend.
  cbv zeta in Hsend. fold r in Hsend.
  rewrite Hsend by (intros e He; rewrite Hnone in He; discriminate).
  unfold Wrapper.ending. rewrite Hnone. cbn [fst snd].
  now rewrite texts_printed_records, tools_printed_records.
Qed.

Lemma complete_record_sums_up_the_stream_witness :
  exists printed,
    Wrapper.send_message
      (Wrapper.serving
         [AssistantMessage
            (Some [TextBlock (Some "a"); ToolUseBlock (Some "x");
                   ToolUseBlock (Some "x"); TextBlock (Some "b")])])
      "hello" None Wrapper.world0
    = (Wrapper.mkWorld
         (Wrapper.stdout Wrapper.world0
          ++ printed
          ++ [Wrapper.complete_record (Wrapper.texts_printed printed)
                (Wrapper.tools_printed printed)])%list
         (S (Wrapper.created Wrapper.world0)),
       Ok tt).
Proof.
  apply (complete_record_sums_up_the_stream
           (Wrapper.serving
              [AssistantMessage
                 (Some [TextBlock (Some "a"); ToolUseBlock (Some "x");
                        ToolUseBlock (Some "x"); TextBlock (Some "b")])])
           "hello" None Wrapper.world0).
  reflexivity.
Defined.

(** X7.  Whatever the session does and however [send_message] ends, each
    [tool_error] record it prints holds the first 500 characters of the
    content of a tool result that is an error among the events consumed:
    all of the content when it has 500 characters or fewer, and 500
    characters otherwise. *)
Theorem tool_error_text_is_bounded (wrt : runtime) (message : string)
    (working_dir : option string) (n : nat) (content : string) :
  let r :=
    wrt (S n)
      match working_dir with
      | None => Wrapper.LIFEOS_ROOT
      | Some d => d
      end "claude-sonnet-4-5" in
  In (Wrapper.tool_error_record content)
     (Wrapper.stdout
        (fst (Wrapper.send_message wrt message working_dir
                (Wrapper.mkWorld [] n)))) ->
  exists full,
    In (ToolResult true full) (Wrapper.streamed r message)
    /\ content = take 500 full
    /\ len content = Nat.min 500 (len full).
Proof.
  intros r Hin.
  pose proof (send_message_closing wrt message working_dir
                (Wrapper.mkWorld [] n)) as Hsend.
  cbv zeta in Hsend. cbn [Wrapper.created Wrapper.stdout] in Hsend.
  fold r in Hsend. rewrite Hsend in Hin.
  cbn [fst Wrapper.stdout app] in Hin.
  apply in_app_or in Hin as [Hin|Hin].
  - unfold Wrapper.records_of in Hin.
    apply in_map_iff in Hin as (ev & Hev & Hfil).
    apply filter_In in Hfil as [Hev_in Hrep].
    destruct ev as [t|m|x y];
      unfold Wrapper.record, Wrapper.text_record, Wrapper.tool_record,
        Wrapper.tool_error_record in Hev;
      try discriminate.
    assert (content = take 500 y) as -> by congruence.
    destruct x; [|discriminate Hrep].
    exists y. split; [exact Hev_in|]. split; [reflexivity|].
    apply len_take.
  - unfold Wrapper.closing in Hin.
    destruct (Wrapper.failure r message) as [e|].
    + destruct (is_Exception e); cbn [fst] in Hin.
      * destruct Hin as [Hin|[]]. discriminate Hin.
      * destruct Hin.
    + cbn [fst] in Hin. destruct Hin as [Hin|[]]. discriminate Hin.
Qed.

Lemma tool_error_text_is_bounded_witness :
  exists full,
    In (ToolResult true full)
       (Wrapper.streamed
          (Wrapper.serving
             [UserMessage (Some [ToolResultBlock true (times e_acute 600)])]
             1%nat Wrapper.LIFEOS_ROOT "claude-sonnet-4-5")
          "hello")
    /\ times e_acute 500 = take 500 full
    /\ len (times e_acute 500) = Nat.min 500 (len full).
Proof.
  apply (tool_error_text_is_bounded
           (Wrapper.serving
              [UserMessage (Some [ToolResultBlock true (times e_acute 600)])])
           "hello" None 0 (times e_acute 500)).
  vm_compute. auto.
Defined.

(** X8.  The wrapper and the runner read a session alike.  Given the same client
    and the same text to submit, when the runner returns ["success"] with a
    text the wrapper ends with the [complete] record of that text, and when
    the runner returns ["error"] with a text the wrapper ends with the
    [error] record of that text and leaves through [sys.exit(1)]. *)
Theorem wrapper_agrees_with_runner (E : env) (wrt : runtime)
    (agent_type model : string) (iteration : Z) (w w' : world)
    (ww : Wrapper.world) (working_dir : option string) (c : client)
    (status text : string) :
  rt E (S (created w)) (str_of_path ECHO_MVP_DIR) model = Ok c ->
  wrt (S (Wrapper.created ww))
    match working_dir with
    | None => Wrapper.LIFEOS_ROOT
    | Some d => d
    end "claude-sonnet-4-5" = Ok c ->
  run_agent_iteration E agent_type iteration model w
  = (w', Ok (status, text)) ->
  exists printed last,
    Wrapper.send_message wrt (prompt_text agent_type iteration)
      working_dir ww
    = (Wrapper.mkWorld (Wrapper.stdout ww ++ printed ++ [last])%list
         (S (Wrapper.created ww)),
       if String.eqb status "success" then Ok tt
       else Raise (SystemExit 1))
    /\ last
       = (if String.eqb status "success"
          then Wrapper.complete_record text (Wrapper.tools_printed printed)
          else Wrapper.error_record text).
Proof.
  intros Hc Hwc Hrun.
  pose proof (send_message_spec wrt (prompt_text agent_type iteration)
                working_dir ww) as Hsend.
  cbv zeta in Hsend. rewrite Hwc in Hsend.
  exists (Wrapper.records_of
            (Wrapper.streamed (Ok c) (prompt_text agent_type iteration))).
  assert (Hcases :
            (status = "success"
             /\ with_block_raise c (prompt_text agent_type iteration) = None
             /\ text
                = aggregated_text
                    (events_of
                       (stream_messages
                          (receive_response c
                             (prompt_text agent_type iteration)))))
            \/ (status = "error"
                /\ exists e,
                     with_block_raise c (prompt_text agent_type iteration)
                     = Some e
                     /\ is_Exception e = true /\ text = exn_str e)).
  { pose proof (run_agent_iteration_outcome E agent_type model iteration
                  w c Hc) as Hout.
    rewrite Hrun in Hout. cbn [snd] in Hout. unfold outcome_for in Hout.
    destruct (with_block_raise c (prompt_text agent_type iteration))
      as [e|].
    - destruct (is_Exception e) eqn:He; [|discriminate].
      inversion Hout; subst. right. split; [reflexivity|].
      exists e. auto.
    - inversion Hout; subst. left. auto. }
  destruct Hcases as [(-> & Hnone & ->)|(-> & e & He & Hcls & ->)].
  - eexists. split.
    + rewrite Hsend
        by (cbn [Wrapper.failure]; intros e He; rewrite Hnone in He;
            discriminate).
      unfold Wrapper.ending. cbn [Wrapper.failure]. rewrite Hnone.
      cbn [fst snd String.eqb]. reflexivity.
    + rewrite tools_printed_records. cbn [String.eqb].
      unfold Wrapper.streamed. unfold with_block_raise in Hnone.
      destruct (aenter c); [discriminate|].
      destruct (aexit c); [discriminate|].
      destruct (query c (prompt_text agent_type iteration));
        [discriminate | reflexivity].
  - eexists. split.
    + rewrite Hsend
        by (cbn [Wrapper.failure]; intros e' He'; rewrite He in He';
            inversion He'; subst; exact Hcls).
      unfold Wrapper.ending. cbn [Wrapper.failure]. rewrite He.
      cbn [fst snd]. reflexivity.
    + reflexivity.
Qed.

Lemma wrapper_agrees_with_runner_witness :
  exists printed last,
    Wrapper.send_message
      (fun _ _ _ => Ok (refusing (Exception_ "down")))
      (prompt_text "email" 1) None Wrapper.world0
    = (Wrapper.mkWorld
         (Wrapper.stdout Wrapper.world0 ++ printed ++ [last])%list
         (S (Wrapper.created Wrapper.world0)),
       if String.eqb "error" "success" then Ok tt
       else Raise (SystemExit 1))
    /\ last
       = (if String.eqb "error" "success"
          then Wrapper.complete_record "down" (Wrapper.tools_printed printed)
          else Wrapper.error_record "down").
Proof.
  apply (wrapper_agrees_with_runner
           (handing (refusing (Exception_ "down")))
           (fun _ _ _ => Ok (refusing (Exception_ "down")))
           "email" "claude-sonnet-4-5" 1 world0
           (fst (run_agent_iteration
                   (handing (refusing (Exception_ "down")))
                   "email" 1 "claude-sonnet-4-5" world0))
           Wrapper.world0 None (refusing (Exception_ "down"))
           "error" "down").
  - reflexivity.
  - reflexivity.
  - vm_compute. reflexivity.
Defined.

(** ** The loop: what the banner announces, pauses and delays *)

Lemma str_of_int_head (n : Z) :
  exists c s, str_of_int n = String c s /\ c <> "U"%char.
Proof.
  unfold str_of_int, NilZero.string_of_int, NilZero.string_of_uint.
  destruct (Z.to_int n) as [d|d].
  - destruct d; simpl; eexists; eexists; (split; [reflexivity|]);
      discriminate.
  - eexists; eexists; (split; [reflexivity|]); discriminate.
Qed.

(** X9.  The banner shows [Unlimited] as the maximum exactly when the guard of
    the loop can never hold, that is when the maximum is absent or 0. *)
Theorem banner_says_unlimited_iff_unbounded (max_iterations : option Z) :
  max_or_unlimited max_iterations = "Unlimited"
  <-> forall iteration, max_reached max_iterations iteration = false.
Proof.
  destruct max_iterations as [n|]; simpl; [|split; reflexivity].
  destruct (Z.eqb_spec n 0) as [->|Hn]; simpl.
  - split; reflexivity.
  - split.
    + intros H. destruct (str_of_int_head n) as (c & s & Hs & Hc).
      rewrite Hs in H. inversion H. contradiction.
    + intros H. specialize (H (n + 1)).
      apply Z.ltb_ge in H. lia.
Qed.

Lemma delays_at_zero (j : nat) :
  flat_map (delays (Some 0)) (iterations j) = repeat 5 j.
Proof.
  induction j as [|j IH]; [reflexivity|].
  rewrite iterations_snoc, flat_map_app, IH. cbn [flat_map].
  unfold delays, more_to_come.
  destruct (Z.ltb_spec (Z.of_nat j + 1) 0) as [H|_]; [lia|].
  rewrite app_nil_r. change (AUTO_CONTINUE_DELAY :: []) with [5].
  symmetry. apply (repeat_cons j 5).
Qed.

(** X10.  The pause of one second before the next iteration is taken exactly
    when the next pass will not be cut, for every maximum but 0; with the
    maximum at 0 the loop goes on without ever taking it, each pass sleeping
    the delay of 5 alone. *)
Theorem pause_goes_with_next_pass (fuel : nat) (E : env)
    (agent_type model : string) (max_iterations : option Z)
    (iteration : Z) (w : world) :
  (max_iterations <> Some 0 ->
   more_to_come max_iterations iteration
   = negb (max_reached max_iterations (iteration + 1)))
  /\ (dependable E ->
      exists w',
        run_continuous_build fuel E agent_type (Some 0) model w
        = (w', Ok None)
        /\ slept w' = (slept w ++ repeat 5 fuel)%list).
Proof.
  split.
  - intros Hmax. destruct max_iterations as [n|]; simpl; [|reflexivity].
    destruct (Z.eqb_spec n 0) as [->|Hn]; [congruence|]. simpl.
    rewrite <- Z.leb_antisym.
    destruct (Z.ltb_spec iteration n), (Z.leb_spec (iteration + 1) n);
      reflexivity || lia.
  - intros HE.
    destruct (run_still_running fuel E agent_type model (Some 0) w HE)
      as (w' & Hrun & _ & _ & Hslept & _); [reflexivity|].
    exists w'. split; [exact Hrun|]. now rewrite Hslept, delays_at_zero.
Qed.

Lemma pause_goes_with_next_pass_witness :
  more_to_come (Some 3) 3 = negb (max_reached (Some 3) (3 + 1))
  /\ exists w',
       run_continuous_build 3 (serving []) "email" (Some 0)
         "claude-sonnet-4-5" world0
       = (w', Ok None)
       /\ slept w' = (slept world0 ++ repeat 5 3)%list.
Proof.
  destruct (pause_goes_with_next_pass 3 (serving []) "email"
              "claude-sonnet-4-5" (Some 3) 3 world0) as [H1 H2].
  split.
  - apply H1. discriminate.
  - apply H2, serving_dependable.
Defined.

Lemma total_app (a b : list Z) : total (a ++ b) = total a + total b.
Proof.
  unfold total. induction a as [|x a IH]; simpl; [reflexivity|].
  rewrite IH. lia.
Qed.

Lemma total_before_last (n : Z) (j : nat) :
  (j < Z.to_nat n)%nat ->
  total (flat_map (delays (Some n)) (iterations j)) = 6 * Z.of_nat j.
Proof.
  induction j as [|j IH]; intros Hj; [reflexivity|].
  rewrite iterations_snoc, flat_map_app, total_app, IH by lia.
  cbn [flat_map]. unfold delays, more_to_come.
  destruct (Z.ltb_spec (Z.of_nat j + 1) n) as [_|H]; [|lia].
  rewrite app_nil_r. unfold total, AUTO_CONTINUE_DELAY.
  cbn [fold_right]. lia.
Qed.

(** X11.  A run with a maximum [n] of at least 1 sleeps [6 n - 1] seconds in all:
    5 after each iteration, the last one too, and 1 more before each
    iteration but the first. *)
Theorem run_sleeps_six_n_minus_one (fuel : nat) (E : env)
    (agent_type model : string) (n : Z) (w : world) :
  dependable E -> 1 <= n -> (Z.to_nat n < fuel)%nat ->
  exists w',
    run_continuous_build fuel E agent_type (Some n) model w
    = (w', Ok (Some (n + 1)))
    /\ total (slept w') = total (slept w) + (6 * n - 1)
    /\ last (slept w') 0 = 5.
Proof.
  intros HE Hn Hfuel.
  destruct (run_ends fuel (Z.to_nat n) E agent_type model (Some n) w HE Hfuel
              (cap_not_reached n) (cap_reached n Hn))
    as (w' & Hrun & _ & _ & Hslept & _).
  exists w'. rewrite Z2Nat.id in Hrun by lia. split; [exact Hrun|].
  destruct (Z.to_nat n) as [|j] eqn:Hj; [lia|].
  assert (Hlast : delays (Some n) (Z.of_nat j + 1) = [5]).
  { unfold delays, more_to_come.
    destruct (Z.ltb_spec (Z.of_nat j + 1) n) as [H|_]; [lia | reflexivity]. }
  rewrite Hslept, iterations_snoc, flat_map_app.
  cbn [flat_map]. rewrite Hlast, app_nil_r. split.
  - rewrite !total_app, total_before_last by lia.
    unfold total. cbn [fold_right]. lia.
  - rewrite app_assoc. apply last_last.
Qed.

Lemma run_sleeps_six_n_minus_one_witness :
  exists w',
    run_continuous_build 4 (serving []) "email" (Some 3)
      "claude-sonnet-4-5" world0
    = (w', Ok (Some (3 + 1)))
    /\ total (slept w') = total (slept world0) + (6 * 3 - 1)
    /\ last (slept w') 0 = 5.
Proof.
  apply (run_sleeps_six_n_minus_one 4 (serving []) "email"
           "claude-sonnet-4-5" 3 world0).
  - apply serving_dependable.
  - lia.
  - vm_compute. lia.
Defined.

(** ** The loop: its summary, a runtime that fails, the log at all times *)

(** X12.  When a run with a maximum [n] of at least 1 ends, the last thing printed
    is the summary, and the number it shows after [Iterations:] is the
    counter at the [break], [n + 1], one more than the [n] iterations that
    have run. *)
Theorem summary_shows_one_more_than_ran (fuel : nat) (E : env)
    (agent_type model : string) (n : Z) (w : world) :
  dependable E -> 1 <= n -> (Z.to_nat n < fuel)%nat ->
  exists w' before,
    run_continuous_build fuel E agent_type (Some n) model w
    = (w', Ok (Some (n + 1)))
    /\ stdout w'
       = before
         ++ summary_text agent_type (n + 1)
              (session_log_path agent_type (now E (clock_reads w)))
    /\ calls w' = (calls w ++ iterations (Z.to_nat n))%list
    /\ length (iterations (Z.to_nat n)) = Z.to_nat n.
Proof.
  intros HE Hn Hfuel. enter_run.
  match goal with |- context [bind (while_true fuel ?b 0) _ ?w0] =>
    destruct (while_true_passes E agent_type model (Some n)
                (session_log_path agent_type (now E (clock_reads w)))
                HE (Z.to_nat n) w0 (cap_not_reached n))
      as (w1 & Hrun & _ & _ & _ & _ & _ & F6)
  end.
  destruct (loop_body_cut E agent_type model (Some n)
              (session_log_path agent_type (now E (clock_reads w)))
              (Z.of_nat (Z.to_nat n) + 1) w1 (cap_reached n Hn))
    as (w2 & Hbody & Q2).
  cbn [calls] in F6.
  replace fuel with (Z.to_nat n + S (fuel - S (Z.to_nat n)))%nat by lia.
  rewrite (bind_ok _ _ _ w2 (Some (Z.of_nat (Z.to_nat n) + 1)))
    by (rewrite Hrun; apply (while_true_break _ _ _ _ _ Hbody)).
  rewrite Z2Nat.id by lia.
  do 7 step. unfold ret.
  eexists. exists (stdout w2). split; [reflexivity|].
  destruct Q2 as (_ & _ & _ & _ & q5).
  cbn [stdout calls]. split; [|split].
  - unfold summary_text. rewrite !string_app_assoc. reflexivity.
  - now rewrite q5, F6.
  - unfold iterations. now rewrite length_map, length_seq.
Qed.

Lemma summary_shows_one_more_than_ran_witness :
  exists w' before,
    run_continuous_build 3 (serving []) "email" (Some 2)
      "claude-sonnet-4-5" world0
    = (w', Ok (Some (2 + 1)))
    /\ stdout w'
       = before
         ++ summary_text "email" (2 + 1)
              (session_log_path "email"
                 (now (serving []) (clock_reads world0)))
    /\ calls w' = (calls world0 ++ iterations (Z.to_nat 2))%list
    /\ length (iterations (Z.to_nat 2)) = Z.to_nat 2.
Proof.
  apply (summary_shows_one_more_than_ran 3 (serving []) "email"
           "claude-sonnet-4-5" 2 world0).
  - apply serving_dependable.
  - lia.
  - vm_compute. lia.
Defined.

Lemma loop_body_pass_at (E : env) (agent_type model : string)
    (max_iterations : option Z) (log : path) (iteration : Z) (w : world) :
  (exists c,
      rt E (S (created w)) (str_of_path ECHO_MVP_DIR) model = Ok c
      /\ forall prompt e,
           with_block_raise c prompt = Some e -> is_Exception e = true) ->
  max_reached max_iterations iteration = false ->
  exists w',
    loop_body E agent_type max_iterations model log iteration w
    = (w', Ok true)
    /\ PyDict.get (files w') log ""
       = PyDict.get (files w) log ""
         ++ entry_text iteration (now E (clock_reads w))
              (response_of
                 (iteration_outcome E agent_type model (S (created w))
                    iteration))
    /\ (forall p, p <> log ->
          PyDict.lookup (files w') p = PyDict.lookup (files w) p)
    /\ slept w' = (slept w ++ delays max_iterations iteration)%list
    /\ created w' = S (created w)
    /\ clock_reads w' = S (clock_reads w)
    /\ calls w' = (calls w ++ [iteration])%list.
Proof.
  intros (c & Hc & Hcatch) Hmax.
  destruct (run_agent_iteration_spec E agent_type model iteration w c Hc)
    as (prompt & w1 & Hp & Hrun & G1 & G2 & G3 & G4 & G5).
  destruct (outcome_for_returns c prompt (Hcatch prompt))
    as (status & text & Hout & _).
  rewrite Hout in Hrun.
  destruct (loop_body_spec E agent_type model max_iterations log iteration
              w w1 status text Hmax Hrun)
    as (w' & Hbody & F1 & F2 & F3 & F4 & F5 & F6).
  exists w'. split; [exact Hbody|].
  unfold iteration_outcome. rewrite Hc, Hp, Hout. cbn [response_of].
  rewrite F1, F3, F4, F5, F6, G1, G2, G3, G4, G5.
  repeat split; auto. intros p Hp'. rewrite (F2 p Hp'). now rewrite G1.
Qed.

Lemma while_true_passes_for (E : env) (agent_type model : string)
    (max_iterations : option Z) (log : path) :
  forall (j : nat) (w : world),
    dependable_for E (created w) j ->
    (forall k, (1 <= k <= j)%nat ->
       max_reached max_iterations (Z.of_nat k) = false) ->
    exists w',
      (forall fuel,
         while_true (j + fuel)
           (loop_body E agent_type max_iterations model log) 0 w
         = while_true fuel
             (loop_body E agent_type max_iterations model log)
             (Z.of_nat j) w')
      /\ PyDict.get (files w') log ""
         = PyDict.get (files w) log ""
           ++ concat
                (map (logged E agent_type model (created w) (clock_reads w))
                   (seq 1 j))
      /\ (forall p, p <> log ->
            PyDict.lookup (files w') p = PyDict.lookup (files w) p)
      /\ slept w'
         = (slept w ++ flat_map (delays max_iterations) (iterations j))%list
      /\ created w' = (created w + j)%nat
      /\ clock_reads w' = (clock_reads w + j)%nat
      /\ calls w' = (calls w ++ iterations j)%list.
Proof.
  induction j as [|j IH]; intros w HE Hmax.
  - exists w. cbn [seq map concat fold_right iterations flat_map].
    rewrite string_app_nil_r, !app_nil_r, !Nat.add_0_r.
    repeat split; reflexivity.
  - destruct (IH w) as (wj & Hrun & F1 & F2 & F3 & F4 & F5 & F6).
    { intros k p m Hk. apply HE. lia. }
    { intros k Hk. apply Hmax. lia. }
    assert (Hnot : max_reached max_iterations (Z.of_nat j + 1) = false).
    { replace (Z.of_nat j + 1) with (Z.of_nat (S j)) by lia.
      apply Hmax. lia. }
    destruct (loop_body_pass_at E agent_type model max_iterations log
                (Z.of_nat j + 1) wj)
      as (w' & Hbody & G1 & G2 & G3 & G4 & G5 & G6); [|exact Hnot|].
    { apply HE. rewrite F4. lia. }
    exists w'. split; [|split; [|split; [|split; [|split; [|split]]]]].
    + intros fuel.
      replace (S j + fuel)%nat with (j + S fuel)%nat by lia.
      rewrite Hrun, (while_true_step _ _ _ _ _ Hbody).
      now replace (Z.of_nat (S j)) with (Z.of_nat j + 1) by lia.
    + rewrite G1, F1, seq_S, map_app, string_app_assoc.
      cbn [map]. rewrite concat_snoc. unfold logged at 3.
      rewrite F4, F5.
      replace (Z.of_nat (1 + j)) with (Z.of_nat j + 1) by lia.
      replace (clock_reads w + (1 + j) - 1)%nat with (clock_reads w + j)%nat
        by lia.
      replace (created w + (1 + j))%nat with (S (created w + j)) by lia.
      reflexivity.
    + intros p Hp. now rewrite (G2 p Hp), (F2 p Hp).
    + rewrite G3, F3, iterations_snoc, flat_map_app, <- app_assoc.
      cbn [flat_map]. now rewrite app_nil_r.
    + rewrite G4, F4. lia.
    + rewrite G5, F5. lia.
    + rewrite G6, F6, iterations_snoc. now rewrite <- app_assoc.
Qed.

(** X13.  When [create_client] raises at iteration [j + 1], after [j] iterations
    that ran, the run ends there by raising that exception: the runner has
    been called for the iterations [1 .. j + 1], the session log holds the
    entries of [1 .. j] and none for [j + 1], and the delays slept are those
    of the [j] full passes. *)
Theorem client_failure_ends_the_run (fuel j : nat) (E : env)
    (agent_type model : string) (max_iterations : option Z) (w : world)
    (e : exn) :
  dependable_for E (created w) j ->
  rt E (S (created w + j)) (str_of_path ECHO_MVP_DIR) model = Raise e ->
  (forall k, (1 <= k <= S j)%nat ->
     max_reached max_iterations (Z.of_nat k) = false) ->
  (j < fuel)%nat ->
  exists w',
    run_continuous_build fuel E agent_type max_iterations model w
    = (w', Raise e)
    /\ PyDict.get (files w')
         (session_log_path agent_type (now E (clock_reads w))) ""
       = PyDict.get (files w)
           (session_log_path agent_type (now E (clock_reads w))) ""
         ++ concat
              (map (logged E agent_type model (created w)
                      (S (clock_reads w)))
                 (seq 1 j))
    /\ calls w' = (calls w ++ iterations (S j))%list
    /\ slept w'
       = (slept w ++ flat_map (delays max_iterations) (iterations j))%list.
Proof.
  intros HE Hfail Hmax Hfuel. enter_run.
  match goal with |- context [bind (while_true fuel ?b 0) _ ?w0] =>
    destruct (while_true_passes_for E agent_type model max_iterations
                (session_log_path agent_type (now E (clock_reads w)))
                j w0)
      as (w1 & Hrun & F1 & _ & F3 & F4 & _ & F6)
  end.
  { exact HE. }
  { intros k Hk. apply Hmax. lia. }
  cbn [stdout files slept created clock_reads calls] in F1, F3, F4, F6.
  assert (Hnot : max_reached max_iterations (Z.of_nat j + 1) = false).
  { replace (Z.of_nat j + 1) with (Z.of_nat (S j)) by lia.
    apply Hmax. lia. }
  assert (Hraise :
            snd (run_agent_iteration E agent_type (Z.of_nat j + 1) model w1)
            = Raise e).
  { apply create_client_failure_propagates. now rewrite F4. }
  pose proof (loop_body_raises E agent_type model max_iterations
                (session_log_path agent_type (now E (clock_reads w)))
                (Z.of_nat j + 1) w1 e Hnot Hraise) as Hbody.
  destruct (run_agent_iteration_frame E agent_type model (Z.of_nat j + 1) w1)
    as (R1 & _ & R3 & R4 & _).
  replace fuel with (j + S (fuel - S j))%nat by lia.
  erewrite bind_raise.
  2:{ rewrite Hrun. cbn [while_true]. apply (bind_raise _ _ _ _ _ Hbody). }
  eexists. split; [reflexivity|].
  rewrite R1, R3, R4, F1, F3, F6, iterations_snoc.
  repeat split. now rewrite <- app_assoc.
Qed.

Lemma client_failure_ends_the_run_witness :
  exists w',
    run_continuous_build 5
      (failing_after 2 (streaming []) (Exception_ "no key")) "email" None
      "claude-sonnet-4-5" world0
    = (w', Raise (Exception_ "no key"))
    /\ PyDict.get (files w')
         (session_log_path "email"
            (now (failing_after 2 (streaming []) (Exception_ "no key"))
               (clock_reads world0))) ""
       = PyDict.get (files world0)
           (session_log_path "email"
              (now (failing_after 2 (streaming []) (Exception_ "no key"))
                 (clock_reads world0))) ""
         ++ concat
              (map (logged
                      (failing_after 2 (streaming []) (Exception_ "no key"))
                      "email" "claude-sonnet-4-5" (created world0)
                      (S (clock_reads world0)))
                 (seq 1 2))
    /\ calls w' = (calls world0 ++ iterations (S 2))%list
    /\ slept w'
       = (slept world0 ++ flat_map (delays None) (iterations 2))%list.
Proof.
  apply (client_failure_ends_the_run 5 2
           (failing_after 2 (streaming []) (Exception_ "no key")) "email"
           "claude-sonnet-4-5" None world0 (Exception_ "no key")).
  - intros k p model Hk. exists (streaming []). split.
    + simpl in Hk. simpl.
      destruct (Nat.leb_spec k 2) as [_|H]; [reflexivity | lia].
    + intros prompt e H. rewrite streaming_never_raises in H. discriminate H.
  - reflexivity.
  - intros k Hk. reflexivity.
  - lia.
Defined.
